(** * QBAF relation store and set utilities: a shallow embedding

    The development follows the two parts of the C sources:
    - the set utilities of [qbaf_utils.c], whose text is in
      [src/include/relations.h]: [PySet_IsDisjoint], [PySet_Intersection],
      [PySet_SubSets];
    - the [QBAFARelations] type of [src/src/relations.c]: [new], [init],
      [__len__], [__contains__], [contains], [add], [remove], [copy].

    Python objects that can be put in a set (hashable, immutable) are the
    values of [PyObject]; Python sets and dicts are stdpp's [gset] and
    [gmap].  The definitions come first, module by module, then the facts
    proved about them. *)

From Stdlib Require Import ZArith Lia.
From stdpp Require Import base decidable countable list gmap fin_sets fin_maps.

Local Open Scope Z_scope.

(** ** Hashable Python objects *)

(** An argument of the framework (a [QBAFArgument], or any other hashable
    object that is not a tuple) is identified by a number: two atoms are
    equal for [PyObject_RichCompare] exactly when their numbers are equal.
    A tuple is compared item by item, as CPython does. *)
#[local] Unset Elimination Schemes.
Inductive PyObject : Type :=
  | PyAtom (id : N)
  | PyTuple (items : list PyObject).
#[local] Set Elimination Schemes.

Fixpoint PyObject_to_tree (x : PyObject) : gen_tree N :=
  match x with
  | PyAtom id => GenLeaf id
  | PyTuple items => GenNode 0 (map PyObject_to_tree items)
  end.

Fixpoint PyObject_of_tree (t : gen_tree N) : PyObject :=
  match t with
  | GenLeaf id => PyAtom id
  | GenNode _ ts => PyTuple (map PyObject_of_tree ts)
  end.

Lemma PyObject_nested_ind (P : PyObject → Prop) :
  (∀ id, P (PyAtom id)) →
  (∀ items, Forall P items → P (PyTuple items)) →
  ∀ x, P x.
Proof.
  intros Hatom Htuple.
  fix IH 1. intros [id|items].
  - apply Hatom.
  - apply Htuple. induction items as [|y ys IHys].
    + constructor.
    + constructor; [apply IH | apply IHys].
Qed.

Lemma PyObject_of_to_tree x : PyObject_of_tree (PyObject_to_tree x) = x.
Proof.
  induction x as [id|items IH] using PyObject_nested_ind; simpl; [done|].
  f_equal. induction IH as [|y ys Hy _ IHys]; simpl; [done|].
  by rewrite Hy, IHys.
Qed.

#[global] Instance PyObject_eq_dec : EqDecision PyObject.
Proof.
  intros x y.
  destruct (decide (PyObject_to_tree x = PyObject_to_tree y)) as [Heq|Hne].
  - left. rewrite <- (PyObject_of_to_tree x), <- (PyObject_of_to_tree y).
    by rewrite Heq.
  - right. intros ->. by apply Hne.
Defined.

#[global] Instance PyObject_countable : Countable PyObject :=
  inj_countable' PyObject_to_tree PyObject_of_tree PyObject_of_to_tree.

(** [PyTuple_Check(o) && PyTuple_Size(o) == 2]. *)
Definition is_pair (o : PyObject) : bool :=
  match o with
  | PyTuple [_; _] => true
  | _ => false
  end.


(** The Pascal triangle, the reference for the number of [k]-subsets. *)
Fixpoint binomial (n k : nat) : nat :=
  match n, k with
  | _, O => 1
  | O, S _ => 0
  | S n', S k' => binomial n' k' + binomial n' k
  end%nat.

(** ** Python lists filled slot by slot *)

(** [PyList_New(len)] gives a list of [len] empty slots ([NULL] items), and
    the macro [PyList_SET_ITEM(list, index, item)] writes a slot without any
    check.  A write at an index that the list does not have is a write
    outside the array of the list: the model stops there with [None]. *)
Definition PyList_SET_ITEM {A : Type} (lst : list (option A)) (index : nat) (item : A)
  : option (list (option A)) :=
  if decide (index < length lst)%nat then Some (<[index := Some item]> lst) else None.

(** The loop
    [while ((item = PyIter_Next(iterator))) { PyList_SET_ITEM(list, index, item); index++; }]
    over the items the iterator gives. *)
Fixpoint SET_ITEM_loop {A : Type} (lst : list (option A)) (index : nat) (items : list A)
  : option (list (option A)) :=
  match items with
  | [] => Some lst
  | item :: items =>
      match PyList_SET_ITEM lst index item with
      | None => None
      | Some lst => SET_ITEM_loop lst (S index) items
      end
  end.

(** ** qbaf_utils.c *)

(** The set utilities receive pointers to set objects, create new set
    objects and update some of them in place ([PySet_Pop], [PySet_Add]).
    Set objects therefore live in a heap: a location is an index in the
    list of all set objects created so far, and a new object takes the next
    index.  Python lists of sets are lists of locations.  Reference counts
    are not represented, an object that the C code releases simply stays in
    the heap.  Memory is not bounded in this module: creating an object
    always succeeds, so that the [NULL] returns of the source that follow a
    failed allocation have no counterpart; [None] stands for the remaining
    error returns ([NULL], or [-1] for the functions that return [int]). *)
Module qbaf_utils.

Abbreviation loc := nat (only parsing).
Abbreviation heap := (list (gset PyObject)) (only parsing).

(** [PySet_New(NULL)]: a new empty set. *)
Definition PySet_New_NULL (h : heap) : loc * heap :=
  (length h, h ++ [∅]).

(** [PySet_New(iterable)] for an iterable that is a set: a new set with the
    same elements. *)
Definition PySet_New (h : heap) (iterable : loc) : option loc * heap :=
  match h !! iterable with
  | Some s => (Some (length h), h ++ [s])
  | None => (None, h)
  end.

(** [PySet_GET_SIZE(set)]; the macro does no check, on a pointer that is not
    a set the model answers 0. *)
Definition PySet_GET_SIZE (h : heap) (set : loc) : Z :=
  match h !! set with
  | Some s => Z.of_nat (size s)
  | None => 0
  end.

(** [PyObject_GetIter] followed by [PyIter_Next] until exhaustion: the items
    in iteration order. *)
Definition PyObject_GetIter (h : heap) (set : loc) : option (list PyObject) :=
  match h !! set with
  | Some s => Some (elements s)
  | None => None
  end.

Definition PySet_Contains (h : heap) (set : loc) (key : PyObject) : option bool :=
  match h !! set with
  | Some s => Some (bool_decide (key ∈ s))
  | None => None
  end.

Definition PySet_Add (h : heap) (set : loc) (key : PyObject) : option heap :=
  match h !! set with
  | Some s => Some (<[set := s ∪ {[key]}]> h)
  | None => None
  end.

(** [PySet_Pop]: removes and returns an arbitrary element (here the first
    one in iteration order; the proofs only use that it is an element of
    the set); fails on an empty set. *)
Definition PySet_Pop (h : heap) (set : loc) : option PyObject * heap :=
  match h !! set with
  | Some s =>
      match elements s with
      | item :: _ => (Some item, <[set := s ∖ {[item]}]> h)
      | [] => (None, h)
      end
  | None => (None, h)
  end.

(** The [while] loop of [PySet_IsDisjoint] over the items of [set1]. *)
Fixpoint IsDisjoint_loop (h : heap) (set2 : loc) (items : list PyObject) : Z :=
  match items with
  | [] => 1
  | item :: items =>
      match PySet_Contains h set2 item with
      | None => -1
      | Some true => 0
      | Some false => IsDisjoint_loop h set2 items
      end
  end.

Definition PySet_IsDisjoint (h : heap) (set1 set2 : loc) : Z :=
  let '(set1, set2) :=
    if PySet_GET_SIZE h set1 >? PySet_GET_SIZE h set2
    then (set2, set1) else (set1, set2) in
  match PyObject_GetIter h set1 with
  | None => -1
  | Some items => IsDisjoint_loop h set2 items
  end.

(** The [while] loop of [PySet_Intersection]; [new] is the result set. *)
Fixpoint Intersection_loop (h : heap) (set2 new : loc) (items : list PyObject)
  : option heap :=
  match items with
  | [] => Some h
  | item :: items =>
      match PySet_Contains h set2 item with
      | None => None
      | Some true =>
          match PySet_Add h new item with
          | None => None
          | Some h => Intersection_loop h set2 new items
          end
      | Some false => Intersection_loop h set2 new items
      end
  end.

Definition PySet_Intersection (h : heap) (set1 set2 : loc) : option loc * heap :=
  let '(set1, set2) :=
    if PySet_GET_SIZE h set1 >? PySet_GET_SIZE h set2
    then (set2, set1) else (set1, set2) in
  let '(new, h) := PySet_New_NULL h in
  match PyObject_GetIter h set1 with
  | None => (None, h)
  | Some items =>
      match Intersection_loop h set2 new items with
      | None => (None, h)
      | Some h => (Some new, h)
      end
  end.

(** The [for] loop of the [size <= 0] branch of [PySet_SubSets]: it fills a
    list with [n] new empty sets.  The list is never returned. *)
Fixpoint SubSets_empty_sets (h : heap) (n : nat) : list loc * heap :=
  match n with
  | O => ([], h)
  | S n =>
      let '(new_set, h) := PySet_New_NULL h in
      let '(lst, h) := SubSets_empty_sets h n in
      (new_set :: lst, h)
  end.

(** The [while] loop of the [size == 1] branch: one singleton per item. *)
Fixpoint SubSets_singletons (h : heap) (items : list PyObject)
  : option (list loc) * heap :=
  match items with
  | [] => (Some [], h)
  | item :: items =>
      let '(new_set, h) := PySet_New_NULL h in
      match PySet_Add h new_set item with
      | None => (None, h)
      | Some h =>
          match SubSets_singletons h items with
          | (Some lst, h) => (Some (new_set :: lst), h)
          | (None, h) => (None, h)
          end
      end
  end.

(** The inner [while] loop of the general case: [item] is added to every
    set of [subset_list], and the set is appended to the result list [lst]. *)
Fixpoint SubSets_extend (h : heap) (item : PyObject) (subset_list lst : list loc)
  : option (list loc) * heap :=
  match subset_list with
  | [] => (Some lst, h)
  | subset :: subset_list =>
      match PySet_Add h subset item with
      | None => (None, h)
      | Some h => SubSets_extend h item subset_list (lst ++ [subset])
      end
  end.

(** [PySet_SubSets] and its outer [while] loop.  Both the recursive call and
    the next iteration of the loop work on a set with one element less; the
    two functions are defined together by recursion on [fuel], a bound on
    the number of calls and iterations still allowed. *)
Fixpoint PySet_SubSets_rec (fuel : nat) (h : heap) (set : loc) (sz : Z)
  {struct fuel} : option (list loc) * heap :=
  match fuel with
  | O => (None, h)
  | S fuel =>
      if PySet_GET_SIZE h set =? 0 then
        let '(new_set, h) := PySet_New_NULL h in
        (Some [new_set], h)
      else
        let h :=
          if sz <=? 0
          then snd (SubSets_empty_sets h (Z.to_nat (PySet_GET_SIZE h set)))
          else h in
        if sz =? 1 then
          match PyObject_GetIter h set with
          | None => (None, h)
          | Some items => SubSets_singletons h items
          end
        else
          match PySet_New h set with
          | (None, h) => (None, h)
          | (Some myset, h) => SubSets_while fuel h myset sz []
          end
  end
with SubSets_while (fuel : nat) (h : heap) (myset : loc) (sz : Z)
  (lst : list loc) {struct fuel} : option (list loc) * heap :=
  match fuel with
  | O => (None, h)
  | S fuel =>
      if PySet_GET_SIZE h myset >? 0 then
        match PySet_Pop h myset with
        | (None, h) => (None, h)
        | (Some item, h) =>
            match PySet_SubSets_rec fuel h myset (sz - 1) with
            | (None, h) => (None, h)
            | (Some subset_list, h) =>
                match SubSets_extend h item subset_list lst with
                | (None, h) => (None, h)
                | (Some lst, h) =>
                    if PySet_GET_SIZE h myset <? sz then (Some lst, h)
                    else SubSets_while fuel h myset sz lst
                end
            end
        end
      else (Some lst, h)
  end.

(** A call on a set of [n] elements needs at most [2 * n + 2] units. *)
Definition PySet_SubSets (h : heap) (set : loc) (sz : Z)
  : option (list loc) * heap :=
  PySet_SubSets_rec (2 * Z.to_nat (PySet_GET_SIZE h set) + 2) h set sz.

(** *** The other utilities *)

(** The [while] loop of [PySet_IsSubset] over the items of [set1]. *)
Fixpoint IsSubset_loop (h : heap) (set2 : loc) (items : list PyObject) : Z :=
  match items with
  | [] => 1
  | item :: items =>
      match PySet_Contains h set2 item with
      | None => -1
      | Some false => 0
      | Some true => IsSubset_loop h set2 items
      end
  end.

Definition PySet_IsSubset (h : heap) (set1 set2 : loc) : Z :=
  match PyObject_GetIter h set1 with
  | None => -1
  | Some items => IsSubset_loop h set2 items
  end.

(** The [while] loop of [PySet_Union]: every item goes into [new]. *)
Fixpoint Union_loop (h : heap) (new : loc) (items : list PyObject) : option heap :=
  match items with
  | [] => Some h
  | item :: items =>
      match PySet_Add h new item with
      | None => None
      | Some h => Union_loop h new items
      end
  end.

Definition PySet_Union (h : heap) (set1 set2 : loc) : option loc * heap :=
  let '(set1, set2) :=
    if PySet_GET_SIZE h set1 >? PySet_GET_SIZE h set2
    then (set2, set1) else (set1, set2) in
  match PySet_New h set2 with
  | (None, h) => (None, h)
  | (Some new, h) =>
      match PyObject_GetIter h set1 with
      | None => (None, h)
      | Some items =>
          match Union_loop h new items with
          | None => (None, h)
          | Some h => (Some new, h)
          end
      end
  end.

(** The [while] loop of [PySet_Difference]. *)
Fixpoint Difference_loop (h : heap) (set2 new : loc) (items : list PyObject)
  : option heap :=
  match items with
  | [] => Some h
  | item :: items =>
      match PySet_Contains h set2 item with
      | None => None
      | Some false =>
          match PySet_Add h new item with
          | None => None
          | Some h => Difference_loop h set2 new items
          end
      | Some true => Difference_loop h set2 new items
      end
  end.

Definition PySet_Difference (h : heap) (set1 set2 : loc) : option loc * heap :=
  let '(new, h) := PySet_New_NULL h in
  match PyObject_GetIter h set1 with
  | None => (None, h)
  | Some items =>
      match Difference_loop h set2 new items with
      | None => (None, h)
      | Some h => (Some new, h)
      end
  end.

(** How [PyList_Copy] and [PyList_Concat] end: with a list, with [NULL], or
    with a write outside the array of the new list. *)
Inductive list_result (A : Type) : Type :=
  | ListReturn (slots : list (option A))
  | ListNULL
  | ListOverflow.
Arguments ListReturn {A} slots.
Arguments ListNULL {A}.
Arguments ListOverflow {A}.

(** [PyList_New(len)]: [NULL] on a negative length. *)
Definition PyList_New {A : Type} (len : Z) : option (list (option A)) :=
  if len <? 0 then None else Some (replicate (Z.to_nat len) None).

(** [PyList_Copy(iterable, len)].  The iterable is given by the items it
    yields, [None] when the object cannot be iterated. *)
Definition PyList_Copy {A : Type} (iterable : option (list A)) (len : Z)
  : list_result A :=
  match PyList_New len with
  | None => ListNULL
  | Some lst =>
      match iterable with
      | None => ListNULL
      | Some items =>
          match SET_ITEM_loop lst 0 items with
          | None => ListOverflow
          | Some lst => ListReturn lst
          end
      end
  end.

(** [PyList_Concat(list1, list2)] on two lists.  The second loop goes on
    from the index the first one reached, the number of items of
    [list1]. *)
Definition PyList_Concat {A : Type} (list1 list2 : list A) : list_result A :=
  match PyList_New (Z.of_nat (length list1) + Z.of_nat (length list2)) with
  | None => ListNULL
  | Some new =>
      match SET_ITEM_loop new 0 list1 with
      | None => ListOverflow
      | Some new =>
          match SET_ITEM_loop new (length list1) list2 with
          | None => ListOverflow
          | Some new => ListReturn new
          end
      end
  end.

(** [PyList_ContainsSubset(list, superset)] on a list of sets. *)
Fixpoint PyList_ContainsSubset (h : heap) (lst : list loc) (superset : loc) : Z :=
  match lst with
  | [] => 0
  | set :: lst =>
      let issubset := PySet_IsSubset h set superset in
      if issubset <? 0 then -1
      else if issubset =? 0 then PyList_ContainsSubset h lst superset
      else 1
  end.

(** *** Predicates on heaps used in the statements *)

(** Every set object of [h] is still there, unchanged, in [h']. *)
Definition preserved (h h' : heap) : Prop :=
  ∀ l s, h !! l = Some s → h' !! l = Some s.

(** The same, except for the object at [myset]. *)
Definition preserved_except (myset : loc) (h h' : heap) : Prop :=
  (length h ≤ length h')%nat ∧
  ∀ l s, l ≠ myset → h !! l = Some s → h' !! l = Some s.

(** The locations of [lst] were created between [h] and [h']. *)
Definition created (h h' : heap) (lst : list loc) : Prop :=
  Forall (λ l, length h ≤ l < length h')%nat lst.

(** Every location of [lst] holds a set that satisfies [P]. *)
Definition all_sets (h : heap) (lst : list loc) (P : gset PyObject → Prop) : Prop :=
  Forall (λ l, ∃ v, h !! l = Some v ∧ P v) lst.

End qbaf_utils.

(** ** relations.c *)

(** The three containers of a [QBAFARelations] object are created by the
    object itself ([PySet_New], [PyDict_New]) and no pointer to them leaves
    it (the [relations] getter returns a copy), so the object is embedded as
    a record of their contents.  A bucket of [agent_patients] or
    [patient_agents] is the set stored under a key; the C code updates it in
    place through a borrowed pointer, the embedding stores the updated set
    back under the key.

    Every function of the source tests its allocations and returns an error
    when one fails.  Which allocations fail is decided by an [oracle]: the
    list of the outcomes of the next allocations ([true]: it succeeds), an
    exhausted list meaning that memory suffices from then on.  Arguments
    are hashable objects, so that hashing and comparing never raise. *)
Module relations.

Inductive PyExc : Type :=
  | TypeError
  | MemoryError
  | IndexError
  | SystemError.

(** How a call ends: it returns a value, it returns [NULL] or [-1] with an
    exception raised, or it reads through a pointer that is not one of a
    Python object and the process dies. *)
Inductive outcome (A : Type) : Type :=
  | Return (a : A)
  | Raise (e : PyExc)
  | Segfault.
Arguments Return {A} a.
Arguments Raise {A} e.
Arguments Segfault {A}.

Abbreviation oracle := (list bool) (only parsing).
Abbreviation PySetT := (gset PyObject) (only parsing).
Abbreviation PyDictT := (gmap PyObject (gset PyObject)) (only parsing).

Definition malloc (o : oracle) : bool * oracle :=
  match o with
  | [] => (true, [])
  | ok :: o => (ok, o)
  end.

(** *** The CPython calls the source makes *)

Definition PySet_New (iterable : list PyObject) (o : oracle) : option PySetT * oracle :=
  match malloc o with
  | (true, o) => (Some (list_to_set iterable), o)
  | (false, o) => (None, o)
  end.

Definition PyDict_New (o : oracle) : option PyDictT * oracle :=
  match malloc o with
  | (true, o) => (Some ∅, o)
  | (false, o) => (None, o)
  end.

Definition PyTuple_Pack (items : list PyObject) (o : oracle) : option PyObject * oracle :=
  match malloc o with
  | (true, o) => (Some (PyTuple items), o)
  | (false, o) => (None, o)
  end.

(** Creating the iterator allocates; the items then come in the order of
    [elements]. *)
Definition PyObject_GetIter (s : PySetT) (o : oracle) : option (list PyObject) * oracle :=
  match malloc o with
  | (true, o) => (Some (elements s), o)
  | (false, o) => (None, o)
  end.

Definition PyTuple_GetItem (p : PyObject) (pos : nat) : option PyObject :=
  match p with
  | PyTuple items => items !! pos
  | PyAtom _ => None
  end.

Definition PySet_Contains (s : PySetT) (key : PyObject) : bool :=
  bool_decide (key ∈ s).

(** [PySet_Add] may have to grow the table. *)
Definition PySet_Add (s : PySetT) (key : PyObject) (o : oracle) : option PySetT * oracle :=
  match malloc o with
  | (true, o) => (Some (s ∪ {[key]}), o)
  | (false, o) => (None, o)
  end.

Definition PySet_Discard (s : PySetT) (key : PyObject) : PySetT :=
  s ∖ {[key]}.

Definition PyDict_Contains (dict : PyDictT) (key : PyObject) : bool :=
  bool_decide (key ∈ dom dict).

Definition PyDict_GetItem (dict : PyDictT) (key : PyObject) : option PySetT :=
  dict !! key.

Definition PyDict_GetItemWithError (dict : PyDictT) (key : PyObject) : option PySetT :=
  dict !! key.

Definition PyDict_SetItem (dict : PyDictT) (key : PyObject) (val : PySetT) (o : oracle)
  : option PyDictT * oracle :=
  match malloc o with
  | (true, o) => (Some (<[key := val]> dict), o)
  | (false, o) => (None, o)
  end.

(** [PyArg_ParseTupleAndKeywords(args, kwds, "OO|", ...)] on a call made
    with positional arguments only. *)
Definition PyArg_Parse_OO (args : list PyObject) : option (PyObject * PyObject) :=
  match args with
  | [agent; patient] => Some (agent, patient)
  | _ => None
  end.

(** *** The object *)

Record QBAFARelationsObject : Type := {
  relations : gset PyObject;
  agent_patients : gmap PyObject (gset PyObject);
  patient_agents : gmap PyObject (gset PyObject)
}.

Definition set_relations (self : QBAFARelationsObject) (v : PySetT) :=
  {| relations := v;
     agent_patients := agent_patients self;
     patient_agents := patient_agents self |}.

Definition set_agent_patients (self : QBAFARelationsObject) (v : PyDictT) :=
  {| relations := relations self;
     agent_patients := v;
     patient_agents := patient_agents self |}.

Definition set_patient_agents (self : QBAFARelationsObject) (v : PyDictT) :=
  {| relations := relations self;
     agent_patients := agent_patients self;
     patient_agents := v |}.

Inductive PyTypeObject : Type :=
  | QBAFARelationsType.

(** [type] is a pointer: [None] is [NULL], and [type->tp_alloc] reads
    through it. *)
Definition QBAFARelations_new (type : option PyTypeObject) (o : oracle)
  : outcome QBAFARelationsObject * oracle :=
  match type with
  | None => (Segfault, o)
  | Some QBAFARelationsType =>
      match malloc o with
      | (false, o) => (Raise MemoryError, o)
      | (true, o) =>
          match PySet_New [] o with
          | (None, o) => (Raise MemoryError, o)
          | (Some relations, o) =>
              match PyDict_New o with
              | (None, o) => (Raise MemoryError, o)
              | (Some agent_patients, o) =>
                  match PyDict_New o with
                  | (None, o) => (Raise MemoryError, o)
                  | (Some patient_agents, o) =>
                      (Return {| relations := relations;
                                 agent_patients := agent_patients;
                                 patient_agents := patient_agents |}, o)
                  end
              end
          end
      end
  end.

(** Returns the dict after the call together with the set found or created
    under [key]. *)
Definition PyDict_GetItemDefaultPySet_New (dict : PyDictT) (key : PyObject) (o : oracle)
  : option (PyDictT * PySetT) * oracle :=
  if PyDict_Contains dict key then
    match PyDict_GetItemWithError dict key with
    | Some set => (Some (dict, set), o)
    | None => (None, o)
    end
  else
    match PySet_New [] o with
    | (None, o) => (None, o)
    | (Some set, o) =>
        match PyDict_SetItem dict key set o with
        | (None, o) => (None, o)
        | (Some dict, o) => (Some (dict, set), o)
        end
    end.

(** What the [relations] parameter of [init] can be. *)
Inductive PyValue : Type :=
  | PySet (s : gset PyObject)
  | PyList (items : list PyObject)
  | PyOther (x : PyObject).

(** What the [args] parameter of [init] points to: the tuple of the
    positional arguments when the interpreter makes the call, or a C array
    of object pointers, which is what [QBAFARelations_copy] passes. *)
Inductive PyArgs : Type :=
  | ArgsTuple (items : list PyValue)
  | ArgsCArray (cells : list PyValue).

(** [PyArg_ParseTupleAndKeywords(args, kwds, "O|", ...)]. *)
Definition PyArg_Parse_O (args : PyArgs) : outcome PyValue :=
  match args with
  | ArgsTuple [relations] => Return relations
  | ArgsTuple _ => Raise TypeError
  | ArgsCArray _ => Segfault
  end.

(** [PySet_Check(relations) || PyList_Check(relations)], with the items. *)
Definition PyValue_items (v : PyValue) : option (list PyObject) :=
  match v with
  | PySet s => Some (elements s)
  | PyList items => Some items
  | PyOther _ => None
  end.

(** The [while] loop of [QBAFARelations_init]; a [break] is followed by
    [return -1], every [break] leaving an exception raised. *)
Fixpoint init_loop (items : list PyObject) (self : QBAFARelationsObject) (o : oracle)
  : outcome unit * QBAFARelationsObject * oracle :=
  match items with
  | [] => (Return (), self, o)
  | item :: items =>
      if negb (is_pair item) then (Raise TypeError, self, o)
      else
        match PyTuple_GetItem item 0, PyTuple_GetItem item 1 with
        | Some agent, Some patient =>
            match PyDict_GetItemDefaultPySet_New (agent_patients self) agent o with
            | (None, o) => (Raise MemoryError, self, o)
            | (Some (dict, set), o) =>
                let self := set_agent_patients self dict in
                match PySet_Add set patient o with
                | (None, o) => (Raise MemoryError, self, o)
                | (Some set, o) =>
                    let self := set_agent_patients self (<[agent := set]> dict) in
                    match PyDict_GetItemDefaultPySet_New (patient_agents self) patient o with
                    | (None, o) => (Raise MemoryError, self, o)
                    | (Some (dict, set), o) =>
                        let self := set_patient_agents self dict in
                        match PySet_Add set agent o with
                        | (None, o) => (Raise MemoryError, self, o)
                        | (Some set, o) =>
                            let self := set_patient_agents self (<[patient := set]> dict) in
                            init_loop items self o
                        end
                    end
                end
            end
        | _, _ => (Raise IndexError, self, o)
        end
  end.

Definition QBAFARelations_init (self : QBAFARelationsObject) (args : PyArgs) (o : oracle)
  : outcome unit * QBAFARelationsObject * oracle :=
  match PyArg_Parse_O args with
  | Segfault => (Segfault, self, o)
  | Raise e => (Raise e, self, o)
  | Return relations =>
      match PyValue_items relations with
      | None => (Raise TypeError, self, o)
      | Some items =>
          match PySet_New items o with
          | (None, o) => (Raise MemoryError, self, o)
          | (Some relations, o) =>
              let self := set_relations self relations in
              match PyObject_GetIter (relations) o with
              | (None, o) => (Raise MemoryError, self, o)
              | (Some items, o) => init_loop items self o
              end
          end
      end
  end.

(** Calling the type, [QBAFARelations(relations)] in Python:
    [QBAFARelationsType] has [QBAFARelations_new] as [tp_new] and
    [QBAFARelations_init] as [tp_init], and the interpreter runs [tp_new],
    then [tp_init] on the new object; the object is dropped when [tp_init]
    fails. *)
Definition QBAFARelationsType_call (args : PyArgs) (o : oracle)
  : outcome QBAFARelationsObject * oracle :=
  match QBAFARelations_new (Some QBAFARelationsType) o with
  | (Return self, o) =>
      match QBAFARelations_init self args o with
      | (Return _, self, o) => (Return self, o)
      | (Raise e, _, o) => (Raise e, o)
      | (Segfault, _, o) => (Segfault, o)
      end
  | (Raise e, o) => (Raise e, o)
  | (Segfault, o) => (Segfault, o)
  end.

Definition QBAFARelations___len__ (self : QBAFARelationsObject) : Z :=
  Z.of_nat (size (relations self)).

Definition QBAFARelations___contains__ (self : QBAFARelationsObject) (key : PyObject)
  : outcome bool * QBAFARelationsObject :=
  if negb (is_pair key) then (Raise TypeError, self)
  else (Return (PySet_Contains (relations self) key), self).

Definition QBAFARelations_contains (self : QBAFARelationsObject) (args : list PyObject)
  (o : oracle) : outcome bool * QBAFARelationsObject * oracle :=
  match PyArg_Parse_OO args with
  | None => (Raise TypeError, self, o)
  | Some (agent, patient) =>
      match PyTuple_Pack [agent; patient] o with
      | (None, o) => (Raise MemoryError, self, o)
      | (Some tuple, o) =>
          match QBAFARelations___contains__ self tuple with
          | (Return contains, self) => (Return contains, self, o)
          | (Raise e, self) => (Raise e, self, o)
          | (Segfault, self) => (Segfault, self, o)
          end
      end
  end.

Definition QBAFARelations_add (self : QBAFARelationsObject) (args : list PyObject)
  (o : oracle) : outcome unit * QBAFARelationsObject * oracle :=
  match PyArg_Parse_OO args with
  | None => (Raise TypeError, self, o)
  | Some (agent, patient) =>
      match PyTuple_Pack [agent; patient] o with
      | (None, o) => (Raise MemoryError, self, o)
      | (Some tuple, o) =>
          if PySet_Contains (relations self) tuple then (Return (), self, o)
          else
            match PySet_Add (relations self) tuple o with
            | (None, o) => (Raise MemoryError, self, o)
            | (Some set, o) =>
                let self := set_relations self set in
                match PyDict_GetItemDefaultPySet_New (agent_patients self) agent o with
                | (None, o) => (Raise MemoryError, self, o)
                | (Some (dict, set), o) =>
                    let self := set_agent_patients self dict in
                    match PySet_Add set patient o with
                    | (None, o) => (Raise MemoryError, self, o)
                    | (Some set, o) =>
                        let self := set_agent_patients self (<[agent := set]> dict) in
                        match PyDict_GetItemDefaultPySet_New (patient_agents self) patient o with
                        | (None, o) => (Raise MemoryError, self, o)
                        | (Some (dict, set), o) =>
                            let self := set_patient_agents self dict in
                            match PySet_Add set agent o with
                            | (None, o) => (Raise MemoryError, self, o)
                            | (Some set, o) =>
                                (Return (),
                                 set_patient_agents self (<[patient := set]> dict), o)
                            end
                        end
                    end
                end
            end
      end
  end.

Definition QBAFARelations_remove (self : QBAFARelationsObject) (args : list PyObject)
  (o : oracle) : outcome unit * QBAFARelationsObject * oracle :=
  match PyArg_Parse_OO args with
  | None => (Raise TypeError, self, o)
  | Some (agent, patient) =>
      match PyTuple_Pack [agent; patient] o with
      | (None, o) => (Raise MemoryError, self, o)
      | (Some tuple, o) =>
          if negb (PySet_Contains (relations self) tuple) then (Return (), self, o)
          else
            let self := set_relations self (PySet_Discard (relations self) tuple) in
            match PyDict_GetItem (agent_patients self) agent with
            | None => (Raise SystemError, self, o)
            | Some set =>
                let self :=
                  set_agent_patients self
                    (<[agent := PySet_Discard set patient]> (agent_patients self)) in
                match PyDict_GetItem (patient_agents self) patient with
                | None => (Raise SystemError, self, o)
                | Some set =>
                    (Return (),
                     set_patient_agents self
                       (<[patient := PySet_Discard set agent]> (patient_agents self)), o)
                end
            end
      end
  end.

(** [QBAFARelations_new(NULL, NULL, NULL)], then [init] on a C array. *)
Definition QBAFARelations_copy (self : QBAFARelationsObject) (o : oracle)
  : outcome QBAFARelationsObject * oracle :=
  let args := ArgsCArray [PySet (relations self)] in
  match QBAFARelations_new None o with
  | (Return copy, o) =>
      match QBAFARelations_init copy args o with
      | (Return _, copy, o) => (Return copy, o)
      | (Raise e, _, o) => (Raise e, o)
      | (Segfault, _, o) => (Segfault, o)
      end
  | (Raise e, o) => (Raise e, o)
  | (Segfault, o) => (Segfault, o)
  end.

(** *** The index invariant and the stores the interface can build *)

(** The bucket of [key], empty when the dict has no such key. *)
Definition bucket (dict : PyDictT) (key : PyObject) : PySetT :=
  default ∅ (dict !! key).

Definition in_relations (self : QBAFARelationsObject) (a p : PyObject) : Prop :=
  PyTuple [a; p] ∈ relations self.

Definition in_agent_patients (self : QBAFARelationsObject) (a p : PyObject) : Prop :=
  p ∈ bucket (agent_patients self) a.

Definition in_patient_agents (self : QBAFARelationsObject) (a p : PyObject) : Prop :=
  a ∈ bucket (patient_agents self) p.

Definition index_consistent (self : QBAFARelationsObject) : Prop :=
  ∀ a p,
    (in_relations self a p ↔ in_agent_patients self a p)
    ∧ (in_agent_patients self a p ↔ in_patient_agents self a p).

(** All three structures record the pair, or none does. *)
Definition all_or_none (self : QBAFARelationsObject) (a p : PyObject) : Prop :=
  (in_relations self a p ∧ in_agent_patients self a p ∧ in_patient_agents self a p)
  ∨ (¬ in_relations self a p ∧ ¬ in_agent_patients self a p
     ∧ ¬ in_patient_agents self a p).

(** How far [QBAFARelations_add] got with the pair [(a, p)]: [n] of the three
    structures, in the order [relations], [agent_patients],
    [patient_agents], record the pair in addition to what [self] records. *)
Definition added (n : nat) (a p : PyObject) (self self' : QBAFARelationsObject) : Prop :=
  (∀ a' p', in_relations self' a' p'
            ↔ in_relations self a' p' ∨ ((1 ≤ n)%nat ∧ a' = a ∧ p' = p))
  ∧ (∀ a' p', in_agent_patients self' a' p'
              ↔ in_agent_patients self a' p' ∨ ((2 ≤ n)%nat ∧ a' = a ∧ p' = p))
  ∧ (∀ a' p', in_patient_agents self' a' p'
              ↔ in_patient_agents self a' p' ∨ ((3 ≤ n)%nat ∧ a' = a ∧ p' = p)).

(** What a completed [QBAFARelations_remove] of the pair [(a, p)] leaves:
    the three structures record what they did, except the pair, and the
    dicts keep their keys. *)
Definition removed (a p : PyObject) (self self' : QBAFARelationsObject) : Prop :=
  (∀ a' p', in_relations self' a' p'
            ↔ in_relations self a' p' ∧ ¬ (a' = a ∧ p' = p))
  ∧ (∀ a' p', in_agent_patients self' a' p'
              ↔ in_agent_patients self a' p' ∧ ¬ (a' = a ∧ p' = p))
  ∧ (∀ a' p', in_patient_agents self' a' p'
              ↔ in_patient_agents self a' p' ∧ ¬ (a' = a ∧ p' = p))
  ∧ dom (agent_patients self') = dom (agent_patients self)
  ∧ dom (patient_agents self') = dom (patient_agents self).

(** The stores that the interface builds: the call of the type, then calls
    of [add] and [remove] that return normally, and membership tests. *)
Inductive reachable : QBAFARelationsObject → Prop :=
  | reachable_create args o self o' :
      QBAFARelationsType_call args o = (Return self, o') →
      reachable self
  | reachable_add self args o self' o' :
      reachable self →
      QBAFARelations_add self args o = (Return (), self', o') →
      reachable self'
  | reachable_remove self args o self' o' :
      reachable self →
      QBAFARelations_remove self args o = (Return (), self', o') →
      reachable self'
  | reachable_contains self args o r self' o' :
      reachable self →
      QBAFARelations_contains self args o = (r, self', o') →
      reachable self'
  | reachable___contains__ self key r self' :
      reachable self →
      QBAFARelations___contains__ self key = (r, self') →
      reachable self'.

(** *** The two listings *)

(** [PyArg_ParseTupleAndKeywords(args, kwds, "O|", ...)] on a call made
    with positional arguments only, all hashable. *)
Definition PyArg_Parse_O1 (args : list PyObject) : option PyObject :=
  match args with
  | [x] => Some x
  | _ => None
  end.

(** [PyList_New(len)]: [len] empty slots. *)
Definition PyList_New (len : nat) (o : oracle)
  : option (list (option PyObject)) * oracle :=
  match malloc o with
  | (true, o) => (Some (replicate len None), o)
  | (false, o) => (None, o)
  end.

(** [QBAFARelations_patients]: the list is made for the size of the bucket
    and filled slot by slot while iterating over the bucket.  Reading the
    size of a [NULL] set, and a write outside the list, count as
    [Segfault]. *)
Definition QBAFARelations_patients (self : QBAFARelationsObject) (args : list PyObject)
  (o : oracle) : outcome (list (option PyObject)) * QBAFARelationsObject * oracle :=
  match PyArg_Parse_O1 args with
  | None => (Raise TypeError, self, o)
  | Some agent =>
      if PyDict_Contains (agent_patients self) agent then
        match PyDict_GetItem (agent_patients self) agent with
        | None => (Segfault, self, o)
        | Some set =>
            match PyList_New (size set) o with
            | (None, o) => (Raise MemoryError, self, o)
            | (Some lst, o) =>
                match PyObject_GetIter set o with
                | (None, o) => (Raise MemoryError, self, o)
                | (Some items, o) =>
                    match SET_ITEM_loop lst 0 items with
                    | None => (Segfault, self, o)
                    | Some lst => (Return lst, self, o)
                    end
                end
            end
        end
      else
        match PyList_New 0 o with
        | (None, o) => (Raise MemoryError, self, o)
        | (Some lst, o) => (Return lst, self, o)
        end
  end.

(** [QBAFARelations_agents]: the same on [patient_agents]. *)
Definition QBAFARelations_agents (self : QBAFARelationsObject) (args : list PyObject)
  (o : oracle) : outcome (list (option PyObject)) * QBAFARelationsObject * oracle :=
  match PyArg_Parse_O1 args with
  | None => (Raise TypeError, self, o)
  | Some patient =>
      if PyDict_Contains (patient_agents self) patient then
        match PyDict_GetItem (patient_agents self) patient with
        | None => (Segfault, self, o)
        | Some set =>
            match PyList_New (size set) o with
            | (None, o) => (Raise MemoryError, self, o)
            | (Some lst, o) =>
                match PyObject_GetIter set o with
                | (None, o) => (Raise MemoryError, self, o)
                | (Some items, o) =>
                    match SET_ITEM_loop lst 0 items with
                    | None => (Segfault, self, o)
                    | Some lst => (Return lst, self, o)
                    end
                end
            end
        end
      else
        match PyList_New 0 o with
        | (None, o) => (Raise MemoryError, self, o)
        | (Some lst, o) => (Return lst, self, o)
        end
  end.

(** The three structures of [self'] record the same pairs as those of
    [self]. *)
Definition same_pairs (self self' : QBAFARelationsObject) : Prop :=
  ∀ a p,
    (in_relations self' a p ↔ in_relations self a p)
    ∧ (in_agent_patients self' a p ↔ in_agent_patients self a p)
    ∧ (in_patient_agents self' a p ↔ in_patient_agents self a p).

End relations.

(** * Properties of qbaf_utils.c *)

Section qbaf_utils_facts.
Import qbaf_utils.

Lemma preserved_refl h : preserved h h.
Proof. by intros l s. Qed.

Lemma preserved_trans h1 h2 h3 :
  preserved h1 h2 → preserved h2 h3 → preserved h1 h3.
Proof. intros H12 H23 l s Hl. by apply H23, H12. Qed.

Lemma preserved_length h h' : preserved h h' → (length h ≤ length h')%nat.
Proof.
  intros Hp. destruct (decide (length h ≤ length h')%nat) as [|Hgt]; [done|].
  assert (length h' < length h)%nat as Hlt by lia.
  destruct (lookup_lt_is_Some_2 h (length h') Hlt) as [s Hs].
  apply Hp, lookup_lt_Some in Hs. lia.
Qed.

Lemma preserved_app h ext : preserved h (h ++ ext).
Proof. intros l s Hl. by apply lookup_app_l_Some. Qed.

Lemma PySet_GET_SIZE_Some (h : heap) set s :
  h !! set = Some s → PySet_GET_SIZE h set = Z.of_nat (size s).
Proof. unfold PySet_GET_SIZE. by intros ->. Qed.

Lemma SubSets_empty_sets_spec n (h : heap) :
  ∃ lst ext, SubSets_empty_sets h n = (lst, h ++ ext).
Proof.
  revert h. induction n as [|n IH]; intros h; simpl.
  - exists [], []. by rewrite app_nil_r.
  - destruct (IH (h ++ [∅])) as (lst & ext & ->).
    exists (length h :: lst), ([∅] ++ ext). by rewrite <- app_assoc.
Qed.

Lemma SubSets_singletons_spec items (h : heap) :
  ∃ lst h', SubSets_singletons h items = (Some lst, h')
    ∧ preserved h h'
    ∧ created h h' lst
    ∧ Forall2 (λ l item, h' !! l = Some {[item]}) lst items.
Proof.
  revert h. induction items as [|item items IH]; intros h; simpl.
  - exists [], h. split_and!; [done|apply preserved_refl|constructor|constructor].
  - unfold PySet_Add. rewrite lookup_app_r, Nat.sub_diag by lia. simpl.
    rewrite union_empty_l_L.
    set (h1 := <[length h := {[item]}]> (h ++ [∅])).
    assert (length h1 = S (length h)) as Hlen1.
    { unfold h1. rewrite length_insert, length_app. simpl. lia. }
    assert (h1 !! length h = Some {[item]}) as Hnew.
    { unfold h1. apply list_lookup_insert_eq. rewrite length_app. simpl. lia. }
    assert (preserved h h1) as Hp1.
    { intros l s Hl. unfold h1. pose proof (lookup_lt_Some _ _ _ Hl).
      rewrite list_lookup_insert_ne by lia. by apply lookup_app_l_Some. }
    destruct (IH h1) as (lst & h' & -> & Hp & Hc & Hall).
    exists (length h :: lst), h'. split_and!.
    + done.
    + by eapply preserved_trans.
    + constructor.
      * pose proof (preserved_length _ _ Hp). lia.
      * eapply Forall_impl; [exact Hc|]. simpl. intros l. lia.
    + constructor; [by apply Hp|done].
Qed.

Lemma SubSets_extend_spec item subset_list (h : heap) lst :
  Forall (λ l, is_Some (h !! l)) subset_list →
  ∃ h', SubSets_extend h item subset_list lst = (Some (lst ++ subset_list), h')
    ∧ length h' = length h
    ∧ (∀ l, l ∉ subset_list → h' !! l = h !! l)
    ∧ (∀ l v, l ∈ subset_list → h !! l = Some v → h' !! l = Some (v ∪ {[item]})).
Proof.
  revert h lst. induction subset_list as [|subset subset_list IH]; intros h lst Hval; simpl.
  - exists h. rewrite app_nil_r. split_and!; [done|done|done|].
    intros l v Hl. by apply elem_of_nil in Hl.
  - apply Forall_cons in Hval as [[s Hs] Hval].
    unfold PySet_Add. rewrite Hs.
    set (h1 := <[subset := s ∪ {[item]}]> h).
    assert (length h1 = length h) as Hlen1 by apply length_insert.
    destruct (IH h1 (lst ++ [subset])) as (h' & -> & Hlen & Hout & Hin).
    { eapply Forall_impl; [exact Hval|]. simpl. intros l Hl.
      apply lookup_lt_is_Some. apply lookup_lt_is_Some in Hl. lia. }
    exists h'. split_and!.
    + by rewrite <- app_assoc.
    + lia.
    + intros l Hl. apply not_elem_of_cons in Hl as [Hne Hl].
      rewrite Hout by done. unfold h1. by rewrite list_lookup_insert_ne.
    + intros l v Hl Hv.
      assert (subset < length h)%nat as Hlt by (by eapply lookup_lt_Some).
      destruct (decide (l ∈ subset_list)) as [Hmem|Hnot].
      * destruct (decide (l = subset)) as [->|Hne].
        -- rewrite (Hin subset (s ∪ {[item]})); [|done|].
           ++ assert (v = s) as -> by congruence.
              by rewrite <- union_assoc_L, union_idemp_L.
           ++ unfold h1. by apply list_lookup_insert_eq.
        -- apply Hin; [done|]. unfold h1. by rewrite list_lookup_insert_ne.
      * apply elem_of_cons in Hl as [->|Hl]; [|done].
        rewrite Hout by done. assert (v = s) as -> by congruence.
        unfold h1. by apply list_lookup_insert_eq.
Qed.

Lemma binomial_one n : binomial n 1 = n.
Proof. induction n as [|n IH]; simpl; [done|]. rewrite IH. by destruct n. Qed.

Lemma binomial_gt n k : (n < k)%nat → binomial n k = 0%nat.
Proof.
  revert k. induction n as [|n IH]; intros [|k] Hlt; simpl; try lia.
  rewrite !IH by lia. done.
Qed.

Lemma binomial_pascal m k :
  (1 ≤ m)%nat → 2 ≤ k →
  binomial m (Z.to_nat k)
  = (binomial (m - 1) (Z.to_nat (k - 1)) + binomial (m - 1) (Z.to_nat k))%nat.
Proof.
  intros Hm Hk. destruct m as [|m]; [lia|].
  replace (Z.to_nat k) with (S (Z.to_nat (k - 1))) by lia.
  simpl. by rewrite Nat.sub_0_r.
Qed.

(** What a call and a run of the outer loop do, given enough fuel. *)
Definition SubSets_rec_spec (fuel : nat) : Prop :=
  ∀ (h : heap) set sz s,
    h !! set = Some s → (2 * size s + 2 ≤ fuel)%nat →
    ∃ lst h', PySet_SubSets_rec fuel h set sz = (Some lst, h')
      ∧ preserved h h'
      ∧ created h h' lst
      ∧ (1 ≤ sz ≤ Z.of_nat (size s) →
         length lst = binomial (size s) (Z.to_nat sz)
         ∧ all_sets h' lst (λ v, v ⊆ s ∧ size v = Z.to_nat sz)).

Definition SubSets_while_spec (fuel : nat) : Prop :=
  ∀ (h : heap) myset sz ms lst,
    h !! myset = Some ms → (2 * size ms + 1 ≤ fuel)%nat →
    ∃ new h', SubSets_while fuel h myset sz lst = (Some (lst ++ new), h')
      ∧ preserved_except myset h h'
      ∧ created h h' new
      ∧ (2 ≤ sz ≤ Z.of_nat (size ms) →
         length new = binomial (size ms) (Z.to_nat sz)
         ∧ all_sets h' new (λ v, v ⊆ ms ∧ size v = Z.to_nat sz)).

Lemma SubSets_rec_step fuel :
  SubSets_while_spec fuel → SubSets_rec_spec (S fuel).
Proof.
  intros IHw h set sz s Hs Hfuel. simpl.
  rewrite (PySet_GET_SIZE_Some _ _ _ Hs).
  destruct (Z.eqb_spec (Z.of_nat (size s)) 0) as [Hz|Hnz].
  { exists [length h], (h ++ [∅]). split_and!.
    - done.
    - apply preserved_app.
    - constructor; [|constructor]. rewrite length_app. simpl. lia.
    - lia. }
  set (h1 := if sz <=? 0
             then snd (SubSets_empty_sets h (Z.to_nat (Z.of_nat (size s))))
             else h).
  assert (∃ ext, h1 = h ++ ext) as [ext Hh1].
  { unfold h1. destruct (sz <=? 0).
    - destruct (SubSets_empty_sets_spec (Z.to_nat (Z.of_nat (size s))) h)
        as (lst & ext & ->). by exists ext.
    - exists []. by rewrite app_nil_r. }
  clearbody h1. subst h1.
  assert ((h ++ ext) !! set = Some s) as Hs1 by (by apply lookup_app_l_Some).
  destruct (Z.eqb_spec sz 1) as [->|Hne1].
  { unfold PyObject_GetIter. rewrite Hs1. simpl.
    destruct (SubSets_singletons_spec (elements s) (h ++ ext))
      as (lst & h' & -> & Hp & Hc & Hall).
    exists lst, h'. split_and!.
    - done.
    - eapply preserved_trans; [apply preserved_app|done].
    - eapply Forall_impl; [exact Hc|]. simpl. intros l.
      rewrite length_app. lia.
    - intros _. split.
      + rewrite (Forall2_length _ _ _ Hall), binomial_one. done.
      + apply Forall_forall. intros l Hl.
        apply list_elem_of_lookup in Hl as [i Hi].
        destruct (Forall2_lookup_l _ _ _ _ _ Hall Hi) as (item & Hitem & Hv).
        exists {[item]}. split; [done|].
        apply list_elem_of_lookup_2, elem_of_elements in Hitem.
        split; [set_solver|]. by rewrite size_singleton. }
  unfold PySet_New. rewrite Hs1.
  destruct (IHw ((h ++ ext) ++ [s]) (length (h ++ ext)) sz s [])
    as (new & h' & -> & [Hlen Hpe] & Hc & Hfun).
  { rewrite lookup_app_r, Nat.sub_diag by lia. done. }
  { lia. }
  exists new, h'. split_and!.
  - done.
  - intros l v Hl. apply Hpe.
    + apply lookup_lt_Some in Hl. rewrite length_app. lia.
    + by apply lookup_app_l_Some, lookup_app_l_Some.
  - eapply Forall_impl; [exact Hc|]. simpl. intros l.
    rewrite !length_app. lia.
  - intros Hrange. apply Hfun. lia.
Qed.

Lemma SubSets_while_step fuel :
  SubSets_rec_spec fuel → SubSets_while_spec fuel → SubSets_while_spec (S fuel).
Proof.
  intros IHr IHw h myset sz ms lst Hms Hfuel. simpl.
  rewrite (PySet_GET_SIZE_Some _ _ _ Hms).
  destruct (Z.gtb_spec (Z.of_nat (size ms)) 0) as [Hpos|Hzero]; cycle 1.
  { exists [], h. rewrite app_nil_r. split_and!.
    - done.
    - split; [done|]. by intros l s _.
    - constructor.
    - lia. }
  unfold PySet_Pop. rewrite Hms.
  destruct (elements ms) as [|item rest] eqn:Hel.
  { apply elements_empty_inv in Hel. apply size_empty_iff in Hel. lia. }
  assert (item ∈ ms) as Hitem.
  { apply elem_of_elements. rewrite Hel. by left. }
  assert (myset < length h)%nat as Hmyset by (by eapply lookup_lt_Some).
  set (ms1 := ms ∖ {[item]}).
  assert (size ms = S (size ms1)) as Hsize.
  { unfold ms1. rewrite size_difference by set_solver.
    rewrite size_singleton. lia. }
  set (h1 := <[myset := ms1]> h).
  assert (h1 !! myset = Some ms1) as Hms1 by (by apply list_lookup_insert_eq).
  assert (length h1 = length h) as Hlen1 by apply length_insert.
  destruct (IHr h1 myset (sz - 1) ms1 Hms1) as (subset_list & h2 & -> & Hp2 & Hc2 & Hfun2);
    [lia|].
  pose proof (preserved_length _ _ Hp2) as Hlen2.
  destruct (SubSets_extend_spec item subset_list h2 lst)
    as (h3 & -> & Hlen3 & Hout3 & Hin3).
  { eapply Forall_impl; [exact Hc2|]. simpl. intros l Hl.
    apply lookup_lt_is_Some. lia. }
  assert (∀ l, (l < length h)%nat → l ∉ subset_list) as Hold.
  { intros l Hl Hmem. unfold created in Hc2.
    rewrite Forall_forall in Hc2. apply Hc2 in Hmem. lia. }
  assert (h3 !! myset = Some ms1) as Hms3.
  { rewrite Hout3 by (by apply Hold). by apply Hp2. }
  assert (∀ l s, l ≠ myset → h !! l = Some s → h3 !! l = Some s) as Hframe3.
  { intros l s Hne Hl. rewrite Hout3.
    - apply Hp2. unfold h1. by rewrite list_lookup_insert_ne.
    - apply Hold. by eapply lookup_lt_Some. }
  assert (2 ≤ sz ≤ Z.of_nat (size ms) →
          length subset_list = binomial (size ms1) (Z.to_nat (sz - 1))
          ∧ all_sets h3 subset_list (λ v, v ⊆ ms ∧ size v = Z.to_nat sz)) as Hfun3.
  { intros Hrange. destruct Hfun2 as [Hcount Hall]; [lia|]. split; [done|].
    unfold all_sets in *. rewrite Forall_forall in Hall. apply Forall_forall.
    intros l Hl. destruct (Hall l Hl) as (v & Hv & Hsub & Hsz).
    exists (v ∪ {[item]}). split_and!.
    - by apply Hin3.
    - unfold ms1 in Hsub. set_solver.
    - rewrite size_union by (unfold ms1 in Hsub; set_solver).
      rewrite size_singleton, Hsz. lia. }
  rewrite (PySet_GET_SIZE_Some _ _ _ Hms3).
  destruct (Z.ltb_spec (Z.of_nat (size ms1)) sz) as [Hbreak|Hcont].
  { exists subset_list, h3. split_and!.
    - done.
    - split; [lia|done].
    - eapply Forall_impl; [exact Hc2|]. simpl. intros l. lia.
    - intros Hrange. destruct (Hfun3 Hrange) as [Hcount Hall]. split; [|done].
      rewrite binomial_pascal by lia.
      rewrite (binomial_gt (size ms - 1) (Z.to_nat sz)) by lia.
      rewrite Hcount. replace (size ms - 1)%nat with (size ms1) by lia. lia. }
  destruct (IHw h3 myset sz ms1 (lst ++ subset_list) Hms3)
    as (new & h4 & -> & [Hlen4 Hpe4] & Hc4 & Hfun4); [lia|].
  exists (subset_list ++ new), h4. split_and!.
  - by rewrite app_assoc.
  - split; [lia|]. intros l s Hne Hl. by apply Hpe4, Hframe3.
  - apply Forall_app. split.
    + eapply Forall_impl; [exact Hc2|]. simpl. intros l. lia.
    + eapply Forall_impl; [exact Hc4|]. simpl. intros l. lia.
  - intros Hrange. destruct (Hfun3 Hrange) as [Hcount3 Hall3].
    destruct Hfun4 as [Hcount4 Hall4]; [lia|]. split.
    + rewrite length_app, Hcount3, Hcount4.
      rewrite (binomial_pascal (size ms)) by lia.
      by replace (size ms - 1)%nat with (size ms1) by lia.
    + apply Forall_app. split.
      * unfold all_sets in Hall3. rewrite Forall_forall in Hall3.
        apply Forall_forall. intros l Hl.
        destruct (Hall3 l Hl) as (v & Hv & Hsub & Hsz).
        exists v. split; [|done].
        apply Hpe4; [|done]. intros ->. by apply (Hold myset).
      * eapply Forall_impl; [exact Hall4|]. simpl.
        intros l (v & Hv & Hsub & Hsz). exists v. split; [done|].
        split; [|done]. unfold ms1 in Hsub. set_solver.
Qed.

Lemma SubSets_specs fuel : SubSets_rec_spec fuel ∧ SubSets_while_spec fuel.
Proof.
  induction fuel as [|fuel [IHr IHw]].
  - split.
    + intros h set sz s _ Hfuel. lia.
    + intros h myset sz ms lst _ Hfuel. lia.
  - split.
    + by apply SubSets_rec_step.
    + by apply SubSets_while_step.
Qed.

(** [PySet_SubSets] returns, and what it returns. *)
Lemma PySet_SubSets_spec (h : heap) set sz s :
  h !! set = Some s →
  ∃ lst h', PySet_SubSets h set sz = (Some lst, h')
    ∧ preserved h h'
    ∧ created h h' lst
    ∧ (1 ≤ sz ≤ Z.of_nat (size s) →
       length lst = binomial (size s) (Z.to_nat sz)
       ∧ all_sets h' lst (λ v, v ⊆ s ∧ size v = Z.to_nat sz)).
Proof.
  intros Hs. unfold PySet_SubSets.
  apply (proj1 (SubSets_specs _)); [done|].
  rewrite (PySet_GET_SIZE_Some _ _ _ Hs). lia.
Qed.

(** On the empty set the answer is one new empty set, whatever the size. *)
Lemma PySet_SubSets_empty (h : heap) set sz :
  h !! set = Some ∅ →
  PySet_SubSets h set sz = (Some [length h], h ++ [∅]).
Proof.
  intros Hs. unfold PySet_SubSets.
  rewrite (PySet_GET_SIZE_Some _ _ _ Hs), size_empty. simpl.
  by rewrite (PySet_GET_SIZE_Some _ _ _ Hs), size_empty.
Qed.

(** *** Disjointness and intersection *)

Lemma IsDisjoint_loop_spec (h : heap) set2 s2 items :
  h !! set2 = Some s2 →
  IsDisjoint_loop h set2 items
  = if decide (Forall (λ x, x ∉ s2) items) then 1 else 0.
Proof.
  intros Hs2. induction items as [|item items IH]; cbn [IsDisjoint_loop].
  - destruct (decide (Forall (λ x, x ∉ s2) [])) as [_|Hno]; [done|].
    destruct Hno. constructor.
  - unfold PySet_Contains. rewrite Hs2.
    destruct (decide (Forall (λ x, x ∉ s2) (item :: items))) as [Hall|Hno].
    + apply Forall_cons in Hall as [Hout Hall].
      case_bool_decide; [done|].
      rewrite IH. by rewrite decide_True.
    + case_bool_decide as Hout; [done|].
      rewrite IH. rewrite decide_False; [done|].
      intros Hall. apply Hno. constructor; assumption.
Qed.

Lemma Forall_not_elem_of_elements (s1 s2 : gset PyObject) :
  Forall (λ x, x ∉ s2) (elements s1) ↔ s1 ∩ s2 = ∅.
Proof.
  rewrite Forall_forall. split.
  - intros Hall. apply set_eq. intros x. rewrite elem_of_intersection.
    split; [|by intros Hx%not_elem_of_empty].
    intros [Hx1 Hx2]. apply elem_of_elements in Hx1. by destruct (Hall x Hx1).
  - intros Hempty x Hx1 Hx2. apply elem_of_elements in Hx1.
    apply (not_elem_of_empty (C:=gset PyObject) x). rewrite <- Hempty.
    by apply elem_of_intersection.
Qed.

Lemma PySet_IsDisjoint_spec (h : heap) set1 set2 s1 s2 :
  h !! set1 = Some s1 → h !! set2 = Some s2 →
  PySet_IsDisjoint h set1 set2 = if decide (s1 ∩ s2 = ∅) then 1 else 0.
Proof.
  intros H1 H2. unfold PySet_IsDisjoint, PyObject_GetIter.
  destruct (PySet_GET_SIZE h set1 >? PySet_GET_SIZE h set2).
  - rewrite H2. simpl. rewrite (IsDisjoint_loop_spec _ _ _ _ H1).
    destruct (decide (s1 ∩ s2 = ∅)) as [He|Hne].
    + apply decide_True, Forall_not_elem_of_elements. by rewrite intersection_comm_L.
    + apply decide_False. rewrite Forall_not_elem_of_elements.
      by rewrite intersection_comm_L.
  - rewrite H1. simpl. rewrite (IsDisjoint_loop_spec _ _ _ _ H2).
    destruct (decide (s1 ∩ s2 = ∅)) as [He|Hne].
    + by apply decide_True, Forall_not_elem_of_elements.
    + apply decide_False. by rewrite Forall_not_elem_of_elements.
Qed.

Lemma Intersection_loop_spec items (h : heap) set2 new s2 acc :
  h !! set2 = Some s2 → h !! new = Some acc → new ≠ set2 →
  ∃ h', Intersection_loop h set2 new items = Some h'
    ∧ length h' = length h
    ∧ h' !! new = Some (acc ∪ (list_to_set items ∩ s2))
    ∧ ∀ l, l ≠ new → h' !! l = h !! l.
Proof.
  revert h acc. induction items as [|item items IH]; intros h acc H2 Hnew Hne; simpl.
  - exists h. split_and!; [done|done| |done].
    rewrite Hnew. f_equal. set_solver.
  - unfold PySet_Contains. rewrite H2.
    case_bool_decide as Hin.
    + unfold PySet_Add. rewrite Hnew.
      assert (new < length h)%nat as Hlt by (by eapply lookup_lt_Some).
      destruct (IH (<[new := acc ∪ {[item]}]> h) (acc ∪ {[item]}))
        as (h' & -> & Hlen & Hres & Hframe).
      * by rewrite list_lookup_insert_ne.
      * by apply list_lookup_insert_eq.
      * done.
      * exists h'. split_and!.
        -- done.
        -- by rewrite Hlen, length_insert.
        -- rewrite Hres. f_equal. set_solver.
        -- intros l Hl. rewrite Hframe by done. by rewrite list_lookup_insert_ne.
    + destruct (IH h acc H2 Hnew Hne) as (h' & -> & Hlen & Hres & Hframe).
      exists h'. split_and!; [done|done| |done].
      rewrite Hres. f_equal. set_solver.
Qed.

Lemma PySet_Intersection_spec (h : heap) set1 set2 s1 s2 :
  h !! set1 = Some s1 → h !! set2 = Some s2 →
  ∃ h', PySet_Intersection h set1 set2 = (Some (length h), h')
    ∧ h' !! length h = Some (s1 ∩ s2)
    ∧ preserved h h'.
Proof.
  intros H1 H2. unfold PySet_Intersection, PySet_New_NULL, PyObject_GetIter.
  assert (∀ (a b : loc) sa sb, h !! a = Some sa → h !! b = Some sb →
    ∃ h', match match (h ++ [∅]) !! a with
                | Some s => Some (elements s)
                | None => None
                end with
          | Some items =>
              match Intersection_loop (h ++ [∅]) b (length h) items with
              | Some h0 => (Some (length h), h0)
              | None => (None, h ++ [∅])
              end
          | None => (None, h ++ [∅])
          end = (Some (length h), h')
      ∧ h' !! length h = Some (sa ∩ sb) ∧ preserved h h') as Hgen.
  { intros a b sa sb Ha Hb.
    rewrite (lookup_app_l_Some _ _ _ _ Ha). simpl.
    destruct (Intersection_loop_spec (elements sa) (h ++ [∅]) b (length h) sb ∅)
      as (h' & -> & Hlen & Hres & Hframe).
    - by apply lookup_app_l_Some.
    - rewrite lookup_app_r, Nat.sub_diag by lia. done.
    - apply lookup_lt_Some in Hb. lia.
    - exists h'. split_and!; [done| |].
      + rewrite Hres. f_equal. rewrite list_to_set_elements_L. set_solver.
      + intros l v Hl. rewrite Hframe.
        * by apply lookup_app_l_Some.
        * apply lookup_lt_Some in Hl. lia. }
  destruct (PySet_GET_SIZE h set1 >? PySet_GET_SIZE h set2).
  - destruct (Hgen set2 set1 s2 s1 H2 H1) as (h' & Hrun & Hres & Hp).
    exists h'. by rewrite (intersection_comm_L s1 s2).
  - by apply Hgen.
Qed.

(** *** The scenarios of the specification *)

Example PySet_IsDisjoint_scenario :
  let h : heap := [ {[PyAtom 1; PyAtom 2; PyAtom 3]}; {[PyAtom 3; PyAtom 4]};
                    {[PyAtom 5]} ] in
  PySet_IsDisjoint h 0 1 = 0 ∧ PySet_IsDisjoint h 1 0 = 0
  ∧ PySet_IsDisjoint h 0 2 = 1 ∧ PySet_IsDisjoint h 2 0 = 1.
Proof. vm_compute. done. Qed.

Example PySet_Intersection_scenario :
  let h : heap := [ {[PyAtom 1; PyAtom 2; PyAtom 3]}; {[PyAtom 3; PyAtom 4]} ] in
  PySet_Intersection h 0 1 = (Some 2%nat, h ++ [ {[PyAtom 3]} ]).
Proof. vm_compute. done. Qed.

(** The three subsets of size 2 of {1, 2, 3}, and the four sets returned
    for the size 0, where one was expected. *)
Example PySet_SubSets_scenario :
  let h : heap := [ {[PyAtom 1; PyAtom 2; PyAtom 3]} ] in
  (∃ lst h', PySet_SubSets h 0 2 = (Some lst, h') ∧ length lst = 3%nat)
  ∧ (∃ lst h', PySet_SubSets h 0 0 = (Some lst, h') ∧ length lst = 4%nat).
Proof. split; eexists _, _; (split; [vm_compute; reflexivity|done]). Qed.

(** *** The claims on qbaf_utils.c *)

(** C3 (as stated, refuted): on the set {1, 2} and size 0, [PySet_SubSets]
    returns two sets where the binomial coefficient C(2, 0) is 1.  The
    [size <= 0] branch of the source builds a list and does not return it,
    so the call goes on into the general loop. *)
Lemma PySet_SubSets_count_size_zero :
  ¬ (∀ (h : heap) set s sz,
       h !! set = Some s →
       0 ≤ sz ≤ Z.of_nat (size s) →
       ∃ lst h', PySet_SubSets h set sz = (Some lst, h')
         ∧ length lst = binomial (size s) (Z.to_nat sz)).
Proof.
  intros Hclaim.
  destruct (Hclaim [ {[PyAtom 1; PyAtom 2]} ] 0%nat {[PyAtom 1; PyAtom 2]} 0)
    as (lst & h' & Hrun & Hcount).
  - reflexivity.
  - vm_compute. split; discriminate.
  - vm_compute in Hrun. injection Hrun as <- _.
    vm_compute in Hcount. discriminate.
Qed.

(** C3 (amended): for a set [s] and a size [sz] with [0 ≤ sz ≤ |s|], where
    [sz] is at least 1 or [s] is empty, [PySet_SubSets] returns, and the
    number of sets it returns is the binomial coefficient C(|s|, sz). *)
Theorem PySet_SubSets_count (h : heap) set s sz :
  h !! set = Some s →
  0 ≤ sz ≤ Z.of_nat (size s) →
  1 ≤ sz ∨ size s = 0%nat →
  ∃ lst h', PySet_SubSets h set sz = (Some lst, h')
    ∧ length lst = binomial (size s) (Z.to_nat sz).
Proof.
  intros Hs Hrange [Hpos|Hempty].
  - destruct (PySet_SubSets_spec h set sz s Hs) as (lst & h' & Hrun & _ & _ & Hfun).
    exists lst, h'. split; [done|]. apply Hfun. lia.
  - apply size_empty_iff, leibniz_equiv in Hempty. subst s.
    rewrite size_empty in *. assert (sz = 0) as -> by lia.
    exists [length h], (h ++ [∅]). split; [|done].
    by apply PySet_SubSets_empty.
Qed.

Lemma PySet_SubSets_count_witness :
  let h : heap := [ {[PyAtom 1; PyAtom 2; PyAtom 3]} ] in
  ∃ lst h', PySet_SubSets h 0 2 = (Some lst, h')
    ∧ length lst = binomial (size ({[PyAtom 1; PyAtom 2; PyAtom 3]} : gset PyObject)) 2.
Proof.
  apply (PySet_SubSets_count [ {[PyAtom 1; PyAtom 2; PyAtom 3]} ] 0
           {[PyAtom 1; PyAtom 2; PyAtom 3]} 2).
  - reflexivity.
  - vm_compute. split; discriminate.
  - left. lia.
Defined.

(** C4: on a non-empty set [s] and a size [sz] with [1 ≤ sz ≤ |s|], every
    set that [PySet_SubSets] returns has exactly [sz] elements and is
    included in [s]; on the empty set it returns one set, the empty set,
    whatever the size. *)
Theorem PySet_SubSets_members (h : heap) set s sz :
  h !! set = Some s →
  ∃ lst h', PySet_SubSets h set sz = (Some lst, h')
    ∧ (s ≠ ∅ → 1 ≤ sz ≤ Z.of_nat (size s) →
       all_sets h' lst (λ v, size v = Z.to_nat sz ∧ v ⊆ s))
    ∧ (s = ∅ → ∃ l, lst = [l] ∧ h' !! l = Some ∅).
Proof.
  intros Hs.
  destruct (PySet_SubSets_spec h set sz s Hs) as (lst & h' & Hrun & _ & _ & Hfun).
  exists lst, h'. split_and!.
  - done.
  - intros _ Hrange. destruct (Hfun Hrange) as [_ Hall].
    eapply Forall_impl; [exact Hall|]. simpl.
    intros l (v & Hv & Hsub & Hsz). by exists v.
  - intros ->. rewrite (PySet_SubSets_empty _ _ _ Hs) in Hrun.
    injection Hrun as <- <-. exists (length h). split; [done|].
    rewrite lookup_app_r, Nat.sub_diag by lia. done.
Qed.

Lemma PySet_SubSets_members_witness :
  let s : gset PyObject := {[PyAtom 1; PyAtom 2; PyAtom 3]} in
  let h : heap := [ s ] in
  ∃ lst h', PySet_SubSets h 0 2 = (Some lst, h')
    ∧ (s ≠ ∅ → 1 ≤ 2 ≤ Z.of_nat (size s) →
       all_sets h' lst (λ v, size v = Z.to_nat 2 ∧ v ⊆ s))
    ∧ (s = ∅ → ∃ l, lst = [l] ∧ h' !! l = Some ∅).
Proof.
  apply (PySet_SubSets_members [ {[PyAtom 1; PyAtom 2; PyAtom 3]} ] 0
           {[PyAtom 1; PyAtom 2; PyAtom 3]} 2).
  reflexivity.
Defined.

(** C7: [PySet_IsDisjoint] gives the same answer for (A, B) and for (B, A),
    the answer is 1 or 0, and it is 1 exactly when the set that
    [PySet_Intersection] returns for A and B is empty. *)
Theorem PySet_IsDisjoint_symmetric (h : heap) A B sA sB :
  h !! A = Some sA → h !! B = Some sB →
  PySet_IsDisjoint h A B = PySet_IsDisjoint h B A
  ∧ (PySet_IsDisjoint h A B = 1 ∨ PySet_IsDisjoint h A B = 0)
  ∧ ∃ new h', PySet_Intersection h A B = (Some new, h')
      ∧ (PySet_IsDisjoint h A B = 1 ↔ h' !! new = Some ∅).
Proof.
  intros HA HB.
  rewrite (PySet_IsDisjoint_spec h A B sA sB HA HB).
  rewrite (PySet_IsDisjoint_spec h B A sB sA HB HA).
  rewrite (intersection_comm_L sB sA).
  destruct (PySet_Intersection_spec h A B sA sB HA HB) as (h' & Hrun & Hres & _).
  split_and!.
  - done.
  - destruct (decide (sA ∩ sB = ∅)); [by left|by right].
  - exists (length h), h'. split; [done|]. rewrite Hres.
    destruct (decide (sA ∩ sB = ∅)) as [He|Hne].
    + by rewrite He.
    + split; [done|]. intros [= He]. done.
Qed.

Lemma PySet_IsDisjoint_symmetric_witness :
  let h : heap := [ {[PyAtom 1; PyAtom 2; PyAtom 3]}; {[PyAtom 3; PyAtom 4]} ] in
  PySet_IsDisjoint h 0 1 = PySet_IsDisjoint h 1 0
  ∧ (PySet_IsDisjoint h 0 1 = 1 ∨ PySet_IsDisjoint h 0 1 = 0)
  ∧ ∃ new h', PySet_Intersection h 0 1 = (Some new, h')
      ∧ (PySet_IsDisjoint h 0 1 = 1 ↔ h' !! new = Some ∅).
Proof.
  apply (PySet_IsDisjoint_symmetric
           [ {[PyAtom 1; PyAtom 2; PyAtom 3]}; {[PyAtom 3; PyAtom 4]} ] 0 1
           {[PyAtom 1; PyAtom 2; PyAtom 3]} {[PyAtom 3; PyAtom 4]}).
  - reflexivity.
  - reflexivity.
Defined.

(** C10: when [PySet_SubSets] returns a list, the set it was called on
    holds the same elements as before the call; so does every other set
    object that existed before the call, and the sets of the list are
    objects created during the call. *)
Theorem PySet_SubSets_input_unchanged (h : heap) set s sz lst h' :
  h !! set = Some s →
  PySet_SubSets h set sz = (Some lst, h') →
  h' !! set = Some s ∧ preserved h h' ∧ created h h' lst.
Proof.
  intros Hs Hrun.
  destruct (PySet_SubSets_spec h set sz s Hs) as (lst0 & h0 & Hrun0 & Hp & Hc & _).
  rewrite Hrun in Hrun0. injection Hrun0 as <- <-.
  split_and!; [|done|done]. by apply Hp.
Qed.

Lemma PySet_SubSets_input_unchanged_witness :
  let s : gset PyObject := {[PyAtom 1; PyAtom 2; PyAtom 3]} in
  let h : heap := [ s ] in
  let lst := default [] (fst (PySet_SubSets h 0 0)) in
  let h' := snd (PySet_SubSets h 0 0) in
  h' !! 0%nat = Some s ∧ preserved h h' ∧ created h h' lst.
Proof.
  apply (PySet_SubSets_input_unchanged [ {[PyAtom 1; PyAtom 2; PyAtom 3]} ] 0
           {[PyAtom 1; PyAtom 2; PyAtom 3]} 0).
  - reflexivity.
  - vm_compute. reflexivity.
Defined.

End qbaf_utils_facts.

(** * Properties of relations.c *)

Section relations_facts.
Import relations.

Lemma bucket_insert (dict : gmap PyObject (gset PyObject)) key set k :
  bucket (<[key := set]> dict) k = if decide (k = key) then set else bucket dict k.
Proof.
  unfold bucket. destruct (decide (k = key)) as [->|Hne].
  - by rewrite lookup_insert_eq.
  - by rewrite lookup_insert_ne.
Qed.

Lemma bucket_lookup (dict : gmap PyObject (gset PyObject)) key set :
  dict !! key = Some set → bucket dict key = set.
Proof. unfold bucket. by intros ->. Qed.

Lemma bucket_elem_of_dom (dict : gmap PyObject (gset PyObject)) key x :
  x ∈ bucket dict key → key ∈ dom dict.
Proof.
  unfold bucket. intros Hx. apply elem_of_dom.
  destruct (dict !! key) as [set|]; [done|]. by apply not_elem_of_empty in Hx.
Qed.

(** The set found or created is the bucket of the key; no bucket changes,
    and the key is in the dict afterwards. *)
Lemma PyDict_GetItemDefaultPySet_New_spec dict key o dict' set o' :
  PyDict_GetItemDefaultPySet_New dict key o = (Some (dict', set), o') →
  dict' !! key = Some set
  ∧ set = bucket dict key
  ∧ (∀ k, bucket dict' k = bucket dict k)
  ∧ dom dict' = dom dict ∪ {[key]}.
Proof.
  unfold PyDict_GetItemDefaultPySet_New, PyDict_Contains, PyDict_GetItemWithError,
    PySet_New, PyDict_SetItem.
  case_bool_decide as Hdom.
  - destruct (dict !! key) as [set0|] eqn:Hkey; [|done].
    intros [= <- <- <-]. split_and!.
    + done.
    + by rewrite (bucket_lookup _ _ _ Hkey).
    + done.
    + set_solver.
  - apply not_elem_of_dom in Hdom.
    destruct (malloc o) as [[|] o1]; [|done].
    destruct (malloc o1) as [[|] o2]; [|done].
    intros [= <- <- <-]. simpl. split_and!.
    + by rewrite lookup_insert_eq.
    + unfold bucket. by rewrite Hdom.
    + intros k. rewrite bucket_insert. destruct (decide (k = key)) as [->|]; [|done].
      unfold bucket. by rewrite Hdom.
    + rewrite dom_insert_L. set_solver.
Qed.

Lemma added_0 a p self : added 0 a p self self.
Proof.
  unfold added. split_and!; intros a' p';
    (split; [tauto | intros [?|[? _]]; [done|lia]]).
Qed.

Lemma elem_of_bucket_updated dict dict' set key item k x :
  set = bucket dict key →
  (∀ k, bucket dict' k = bucket dict k) →
  x ∈ bucket (<[key := set ∪ {[item]}]> dict') k
  ↔ x ∈ bucket dict k ∨ (k = key ∧ x = item).
Proof.
  intros -> Hsame. rewrite bucket_insert.
  destruct (decide (k = key)) as [->|Hne].
  - rewrite elem_of_union, elem_of_singleton. tauto.
  - rewrite Hsame. tauto.
Qed.

Lemma pair_eq (a p a' p' : PyObject) :
  PyTuple [a'; p'] = PyTuple [a; p] ↔ a' = a ∧ p' = p.
Proof. split; [by intros [= -> ->]|by intros [-> ->]]. Qed.

(** Every way [QBAFARelations_add] can end. *)
Lemma QBAFARelations_add_spec self a p o r self' o' :
  QBAFARelations_add self [a; p] o = (r, self', o') →
  ∃ n, (n ≤ 3)%nat
    ∧ added n a p self self'
    ∧ (in_relations self a p → n = 0%nat)
    ∧ (r = Return () ∧ (n = 3%nat ∨ in_relations self a p)
       ∨ (∃ e, r = Raise e) ∧ (n < 3)%nat)
    ∧ dom (agent_patients self) ⊆ dom (agent_patients self')
    ∧ dom (patient_agents self) ⊆ dom (patient_agents self').
Proof.
  unfold QBAFARelations_add. cbn [PyArg_Parse_OO].
  unfold PyTuple_Pack, PySet_Contains.
  destruct (malloc o) as [[|] o1]; cycle 1.
  { intros [= <- <- <-]. exists 0%nat.
    split_and!; [lia|apply added_0|done| |done|done]. right. split; [by eexists|lia]. }
  case_bool_decide as Hin.
  { intros [= <- <- <-]. exists 0%nat.
    split_and!; [lia|apply added_0|done| |done|done]. left. split; [done|by right]. }
  unfold PySet_Add at 1.
  destruct (malloc o1) as [[|] o2]; cycle 1.
  { intros [= <- <- <-]. exists 0%nat.
    split_and!; [lia|apply added_0|done| |done|done]. right. split; [by eexists|lia]. }
  assert (∀ a' p', PyTuple [a'; p'] ∈ relations self ∪ {[PyTuple [a; p]]}
                   ↔ in_relations self a' p' ∨ a' = a ∧ p' = p) as Hrel.
  { intros a' p'. rewrite elem_of_union, elem_of_singleton, pair_eq. done. }
  cbn [agent_patients patient_agents relations set_relations set_agent_patients
       set_patient_agents].
  destruct (PyDict_GetItemDefaultPySet_New (agent_patients self) a o2)
    as [[[dict1 set1]|] o3] eqn:Hget1; cycle 1.
  { intros [= <- <- <-]. exists 1%nat. split_and!; [lia| |done| |done|done].
    - unfold added, in_relations, in_agent_patients, in_patient_agents. simpl.
      split_and!; intros a' p'.
      + rewrite Hrel. unfold in_relations. intuition lia.
      + intuition lia.
      + intuition lia.
    - right. split; [by eexists|lia]. }
  apply PyDict_GetItemDefaultPySet_New_spec in Hget1
    as (Hkey1 & Hset1 & Hsame1 & Hdom1).
  unfold PySet_Add at 1.
  destruct (malloc o3) as [[|] o4]; cycle 1.
  { intros [= <- <- <-]. exists 1%nat. split_and!; [lia| |done| | |done].
    - unfold added, in_relations, in_agent_patients, in_patient_agents. simpl.
      split_and!; intros a' p'.
      + rewrite Hrel. unfold in_relations. intuition lia.
      + rewrite Hsame1. intuition lia.
      + intuition lia.
    - right. split; [by eexists|lia].
    - simpl. set_solver. }
  cbn [agent_patients patient_agents relations set_relations set_agent_patients
       set_patient_agents].
  destruct (PyDict_GetItemDefaultPySet_New (patient_agents self) p o4)
    as [[[dict2 set2]|] o5] eqn:Hget2; cycle 1.
  { intros [= <- <- <-]. exists 2%nat. split_and!; [lia| |done| | |done].
    - unfold added, in_relations, in_agent_patients, in_patient_agents. simpl.
      split_and!; intros a' p'.
      + rewrite Hrel. unfold in_relations. intuition lia.
      + rewrite (elem_of_bucket_updated _ _ _ _ _ _ _ Hset1 Hsame1). intuition lia.
      + intuition lia.
    - right. split; [by eexists|lia].
    - simpl. rewrite dom_insert_L. set_solver. }
  apply PyDict_GetItemDefaultPySet_New_spec in Hget2
    as (Hkey2 & Hset2 & Hsame2 & Hdom2).
  unfold PySet_Add.
  destruct (malloc o5) as [[|] o6]; cycle 1.
  { intros [= <- <- <-]. exists 2%nat. split_and!; [lia| |done| | | ].
    - unfold added, in_relations, in_agent_patients, in_patient_agents. simpl.
      split_and!; intros a' p'.
      + rewrite Hrel. unfold in_relations. intuition lia.
      + rewrite (elem_of_bucket_updated _ _ _ _ _ _ _ Hset1 Hsame1). intuition lia.
      + rewrite Hsame2. intuition lia.
    - right. split; [by eexists|lia].
    - simpl. rewrite dom_insert_L. set_solver.
    - simpl. set_solver. }
  intros [= <- <- <-]. exists 3%nat. split_and!; [lia| |done| | | ].
  - unfold added, in_relations, in_agent_patients, in_patient_agents. simpl.
    split_and!; intros a' p'.
    + rewrite Hrel. unfold in_relations. intuition lia.
    + rewrite (elem_of_bucket_updated _ _ _ _ _ _ _ Hset1 Hsame1). intuition lia.
    + rewrite (elem_of_bucket_updated _ _ _ _ _ _ _ Hset2 Hsame2). intuition lia.
  - left. split; [done|by left].
  - simpl. rewrite dom_insert_L. set_solver.
  - simpl. rewrite dom_insert_L. set_solver.
Qed.

Lemma elem_of_bucket_discarded (dict : gmap PyObject (gset PyObject)) set key item k x :
  dict !! key = Some set →
  x ∈ bucket (<[key := PySet_Discard set item]> dict) k
  ↔ x ∈ bucket dict k ∧ ¬ (k = key ∧ x = item).
Proof.
  intros Hkey. rewrite bucket_insert. unfold PySet_Discard.
  destruct (decide (k = key)) as [->|Hne].
  - rewrite (bucket_lookup _ _ _ Hkey), elem_of_difference, elem_of_singleton. tauto.
  - tauto.
Qed.

(** Every way [QBAFARelations_remove] can end on a consistent store. *)
Lemma QBAFARelations_remove_spec self a p o r self' o' :
  index_consistent self →
  QBAFARelations_remove self [a; p] o = (r, self', o') →
  (self' = self
   ∧ (r = Raise MemoryError ∨ r = Return () ∧ ¬ in_relations self a p))
  ∨ (r = Return () ∧ in_relations self a p ∧ removed a p self self').
Proof.
  intros Hcons. unfold QBAFARelations_remove. cbn [PyArg_Parse_OO].
  unfold PyTuple_Pack, PySet_Contains.
  destruct (malloc o) as [[|] o1]; cycle 1.
  { intros [= <- <- <-]. left. split; [done|by left]. }
  case_bool_decide as Hin; cbn [negb]; cycle 1.
  { intros [= <- <- <-]. left. split; [done|by right]. }
  destruct (Hcons a p) as [Hrel_ap Hap_pa].
  assert (in_agent_patients self a p) as Hap by (by apply Hrel_ap).
  assert (in_patient_agents self a p) as Hpa by (by apply Hap_pa).
  cbn [agent_patients patient_agents relations set_relations set_agent_patients
       set_patient_agents]. unfold PyDict_GetItem.
  destruct (agent_patients self !! a) as [set1|] eqn:Hkey1; cycle 1.
  { apply bucket_elem_of_dom, elem_of_dom in Hap as [? Hsome]. congruence. }
  cbn [agent_patients patient_agents relations set_relations set_agent_patients
       set_patient_agents].
  destruct (patient_agents self !! p) as [set2|] eqn:Hkey2; cycle 1.
  { apply bucket_elem_of_dom, elem_of_dom in Hpa as [? Hsome]. congruence. }
  intros [= <- <- <-]. right. split_and!; [done|done|].
  unfold removed, in_relations, in_agent_patients, in_patient_agents. simpl.
  split_and!.
  - intros a' p'. unfold PySet_Discard.
    rewrite elem_of_difference, elem_of_singleton, pair_eq. done.
  - intros a' p'. rewrite (elem_of_bucket_discarded _ _ _ _ _ _ Hkey1). tauto.
  - intros a' p'. rewrite (elem_of_bucket_discarded _ _ _ _ _ _ Hkey2). tauto.
  - rewrite dom_insert_L. apply elem_of_dom_2 in Hkey1. set_solver.
  - rewrite dom_insert_L. apply elem_of_dom_2 in Hkey2. set_solver.
Qed.

Lemma is_pair_inv item :
  is_pair item = true → ∃ a p, item = PyTuple [a; p].
Proof.
  destruct item as [id|[|a [|p [|x items]]]]; try discriminate.
  intros _. by exists a, p.
Qed.

(** A run of the loop of [init] that ends without an exception: every item
    was a pair, [relations] is as before, and the two dicts record the
    pairs of the items in addition to what they recorded. *)
Lemma init_loop_spec items self o self' o' :
  init_loop items self o = (Return (), self', o') →
  Forall (λ x, is_pair x = true) items
  ∧ relations self' = relations self
  ∧ (∀ a p, in_agent_patients self' a p
            ↔ in_agent_patients self a p ∨ PyTuple [a; p] ∈ items)
  ∧ (∀ a p, in_patient_agents self' a p
            ↔ in_patient_agents self a p ∨ PyTuple [a; p] ∈ items).
Proof.
  revert self o. induction items as [|item items IH]; intros self o; simpl.
  - intros [= <- <-]. split_and!; [constructor|done| |].
    + intros a p. rewrite elem_of_nil. tauto.
    + intros a p. rewrite elem_of_nil. tauto.
  - destruct (is_pair item) eqn:Hpair; cbn [negb]; [|done].
    destruct (is_pair_inv _ Hpair) as (agent & patient & ->).
    cbn [PyTuple_GetItem lookup list_lookup].
    destruct (PyDict_GetItemDefaultPySet_New (agent_patients self) agent o)
      as [[[dict1 set1]|] o1] eqn:Hget1; [|done].
    apply PyDict_GetItemDefaultPySet_New_spec in Hget1
      as (Hkey1 & Hset1 & Hsame1 & Hdom1).
    unfold PySet_Add at 1. destruct (malloc o1) as [[|] o2]; [|done].
    cbn [agent_patients patient_agents relations set_relations set_agent_patients
         set_patient_agents].
    destruct (PyDict_GetItemDefaultPySet_New (patient_agents self) patient o2)
      as [[[dict2 set2]|] o3] eqn:Hget2; [|done].
    apply PyDict_GetItemDefaultPySet_New_spec in Hget2
      as (Hkey2 & Hset2 & Hsame2 & Hdom2).
    unfold PySet_Add at 1. destruct (malloc o3) as [[|] o4]; [|done].
    intros Hrun. apply IH in Hrun as (Hall & Hrel & Hap & Hpa).
    split_and!.
    + by constructor.
    + by rewrite Hrel.
    + intros a p. rewrite Hap. unfold in_agent_patients. simpl.
      rewrite (elem_of_bucket_updated _ _ _ _ _ _ _ Hset1 Hsame1).
      rewrite elem_of_cons, pair_eq. tauto.
    + intros a p. rewrite Hpa. unfold in_patient_agents. simpl.
      rewrite (elem_of_bucket_updated _ _ _ _ _ _ _ Hset2 Hsame2).
      rewrite elem_of_cons, pair_eq. tauto.
Qed.

Lemma PyDict_GetItemDefaultPySet_New_total dict key :
  ∃ dict' set, PyDict_GetItemDefaultPySet_New dict key [] = (Some (dict', set), []).
Proof.
  unfold PyDict_GetItemDefaultPySet_New, PyDict_Contains, PyDict_GetItemWithError.
  case_bool_decide as Hdom.
  - apply elem_of_dom in Hdom as [set ->]. by exists dict, set.
  - simpl. by eexists _, _.
Qed.

(** When memory suffices the loop of [init] ends without an exception on
    items that are all pairs. *)
Lemma init_loop_total items self :
  Forall (λ x, is_pair x = true) items →
  ∃ self', init_loop items self [] = (Return (), self', []).
Proof.
  intros Hall. revert self. induction Hall as [|item items Hpair _ IH]; intros self; simpl.
  - by exists self.
  - rewrite Hpair. cbn [negb].
    destruct (is_pair_inv _ Hpair) as (agent & patient & ->).
    cbn [PyTuple_GetItem lookup list_lookup].
    destruct (PyDict_GetItemDefaultPySet_New_total (agent_patients self) agent)
      as (dict1 & set1 & ->).
    cbn [PySet_Add malloc agent_patients patient_agents relations set_relations
         set_agent_patients set_patient_agents].
    destruct (PyDict_GetItemDefaultPySet_New_total (patient_agents self) patient)
      as (dict2 & set2 & ->).
    cbn [PySet_Add malloc]. apply IH.
Qed.

Lemma QBAFARelations_new_spec o self o' :
  QBAFARelations_new (Some QBAFARelationsType) o = (Return self, o') →
  self = {| relations := ∅; agent_patients := ∅; patient_agents := ∅ |}.
Proof.
  unfold QBAFARelations_new, PySet_New, PyDict_New.
  destruct (malloc o) as [[|] o1]; [|done].
  destruct (malloc o1) as [[|] o2]; [|done].
  destruct (malloc o2) as [[|] o3]; [|done].
  destruct (malloc o3) as [[|] o4]; [|done].
  by intros [= <- <-].
Qed.

(** A store that the call of the type returns. *)
Lemma QBAFARelationsType_call_spec args o self o' :
  QBAFARelationsType_call args o = (Return self, o') →
  ∃ v items, args = ArgsTuple [v]
    ∧ PyValue_items v = Some items
    ∧ Forall (λ x, is_pair x = true) items
    ∧ relations self = list_to_set items
    ∧ (∀ a p, in_agent_patients self a p ↔ PyTuple [a; p] ∈ items)
    ∧ (∀ a p, in_patient_agents self a p ↔ PyTuple [a; p] ∈ items).
Proof.
  unfold QBAFARelationsType_call.
  destruct (QBAFARelations_new (Some QBAFARelationsType) o) as [[self0|e|] o1] eqn:Hnew;
    [|done|done].
  apply QBAFARelations_new_spec in Hnew as ->.
  unfold QBAFARelations_init.
  destruct args as [[|v [|v' vs]]|cells]; cbn [PyArg_Parse_O]; try done.
  destruct (PyValue_items v) as [items|] eqn:Hitems; [|done].
  unfold PySet_New, PyObject_GetIter.
  destruct (malloc o1) as [[|] o2]; [|done].
  destruct (malloc o2) as [[|] o3]; [|done].
  destruct (init_loop _ _ o3) as [[r self1] o4] eqn:Hloop.
  destruct r as [[]|e|]; [|done|done].
  intros [= <- <-].
  apply init_loop_spec in Hloop as (Hall & Hrel & Hap & Hpa).
  simpl in Hrel.
  assert (∀ x, x ∈ elements (list_to_set (C:=gset PyObject) items) ↔ x ∈ items) as Hel.
  { intros x. by rewrite elem_of_elements, elem_of_list_to_set. }
  exists v, items. split_and!; [done|done| |done| |].
  - rewrite Forall_forall in Hall. apply Forall_forall.
    intros x Hx. by apply Hall, Hel.
  - intros a p. rewrite Hap, Hel. unfold in_agent_patients, bucket. simpl.
    rewrite lookup_empty. simpl. rewrite elem_of_empty. tauto.
  - intros a p. rewrite Hpa, Hel. unfold in_patient_agents, bucket. simpl.
    rewrite lookup_empty. simpl. rewrite elem_of_empty. tauto.
Qed.

Lemma QBAFARelationsType_call_total v items :
  PyValue_items v = Some items →
  Forall (λ x, is_pair x = true) items →
  ∃ self, QBAFARelationsType_call (ArgsTuple [v]) [] = (Return self, []).
Proof.
  intros Hitems Hall. unfold QBAFARelationsType_call, QBAFARelations_init.
  cbn [QBAFARelations_new PySet_New PyDict_New malloc PyArg_Parse_O].
  rewrite Hitems. cbn [PySet_New PyObject_GetIter malloc].
  edestruct init_loop_total as [self ->]; [|by exists self].
  apply Forall_forall. intros x Hx.
  apply elem_of_elements, elem_of_list_to_set in Hx.
  rewrite Forall_forall in Hall. by apply Hall.
Qed.

Lemma QBAFARelationsType_call_consistent args o self o' :
  QBAFARelationsType_call args o = (Return self, o') → index_consistent self.
Proof.
  intros Hcall.
  apply QBAFARelationsType_call_spec in Hcall
    as (v & items & _ & _ & _ & Hrel & Hap & Hpa).
  intros a p. rewrite Hap, Hpa. unfold in_relations.
  rewrite Hrel, elem_of_list_to_set. tauto.
Qed.

Lemma add_args_inv self args o self' o' :
  QBAFARelations_add self args o = (Return (), self', o') →
  ∃ a p, args = [a; p].
Proof.
  unfold QBAFARelations_add.
  destruct args as [|a [|p [|x args]]]; cbn [PyArg_Parse_OO]; try done.
  by exists a, p.
Qed.

Lemma remove_args_inv self args o self' o' :
  QBAFARelations_remove self args o = (Return (), self', o') →
  ∃ a p, args = [a; p].
Proof.
  unfold QBAFARelations_remove.
  destruct args as [|a [|p [|x args]]]; cbn [PyArg_Parse_OO]; try done.
  by exists a, p.
Qed.

Lemma QBAFARelations_add_consistent self args o self' o' :
  index_consistent self →
  QBAFARelations_add self args o = (Return (), self', o') →
  index_consistent self'.
Proof.
  intros Hcons Hadd.
  destruct (add_args_inv _ _ _ _ _ Hadd) as (a & p & ->).
  apply QBAFARelations_add_spec in Hadd
    as (n & Hn & (Hrel & Hap & Hpa) & Hin & [[_ Hdone]|[[e He] _]] & _); [|done].
  assert (n = 3 ∨ n = 0)%nat as Hcases.
  { destruct Hdone as [->|Hpresent]; [by left|right; by apply Hin]. }
  intros a' p'. destruct (Hcons a' p') as [H1 H2].
  rewrite Hrel, Hap, Hpa. destruct Hcases as [-> | ->]; intuition lia.
Qed.

Lemma QBAFARelations_remove_consistent self args o self' o' :
  index_consistent self →
  QBAFARelations_remove self args o = (Return (), self', o') →
  index_consistent self'.
Proof.
  intros Hcons Hrem.
  destruct (remove_args_inv _ _ _ _ _ Hrem) as (a & p & ->).
  apply QBAFARelations_remove_spec in Hrem; [|done].
  destruct Hrem as [[-> _]|(_ & _ & Hrel & Hap & Hpa & _)]; [done|].
  intros a' p'. destruct (Hcons a' p') as [H1 H2].
  rewrite Hrel, Hap, Hpa. tauto.
Qed.

Lemma index_consistent_empty :
  index_consistent {| relations := ∅; agent_patients := ∅; patient_agents := ∅ |}.
Proof.
  intros a p. unfold in_relations, in_agent_patients, in_patient_agents, bucket.
  simpl. rewrite !lookup_empty. simpl. rewrite !elem_of_empty. tauto.
Qed.

Lemma size_list_to_set_remove_dups (items : list PyObject) :
  size (list_to_set (C:=gset PyObject) items) = length (remove_dups items).
Proof.
  rewrite <- (size_list_to_set (C:=gset PyObject) (remove_dups items))
    by apply NoDup_remove_dups.
  f_equal. apply set_eq. intros x.
  by rewrite !elem_of_list_to_set, elem_of_remove_dups.
Qed.

(** The membership tests write to nothing. *)
Lemma QBAFARelations___contains___self self key r self' :
  QBAFARelations___contains__ self key = (r, self') → self' = self.
Proof.
  unfold QBAFARelations___contains__.
  destruct (negb (is_pair key)); by intros [= _ <-].
Qed.

Lemma QBAFARelations_contains_self self args o r self' o' :
  QBAFARelations_contains self args o = (r, self', o') → self' = self.
Proof.
  unfold QBAFARelations_contains.
  destruct (PyArg_Parse_OO args) as [[agent patient]|]; [|by intros [= _ <- _]].
  destruct (PyTuple_Pack [agent; patient] o) as [[tuple|] o1]; [|by intros [= _ <- _]].
  destruct (QBAFARelations___contains__ self tuple) as [r0 self0] eqn:Hc.
  apply QBAFARelations___contains___self in Hc as ->.
  destruct r0; by intros [= _ <- _].
Qed.

(** *** The claims on relations.c *)

(** The store that [QBAFARelations([])] returns. *)
Example QBAFARelationsType_call_nil :
  QBAFARelationsType_call (ArgsTuple [PyList []]) []
  = (Return {| relations := ∅; agent_patients := ∅; patient_agents := ∅ |}, []).
Proof. reflexivity. Qed.





(** C2: a store obtained by calling the type and then any number of calls
    of [add] and [remove] that return normally satisfies the index
    invariant: a pair is in [relations] exactly when the patient is in the
    bucket of the agent, exactly when the agent is in the bucket of the
    patient. *)
Theorem reachable_index_consistent self :
  reachable self → index_consistent self.
Proof.
  induction 1 as [args o self o' Hcall
                 |self args o self' o' _ IH Hadd
                 |self args o self' o' _ IH Hrem
                 |self args o r self' o' _ IH Hcontains
                 |self key r self' _ IH Hcontains].
  - by eapply QBAFARelationsType_call_consistent.
  - by eapply QBAFARelations_add_consistent.
  - by eapply QBAFARelations_remove_consistent.
  - by rewrite (QBAFARelations_contains_self _ _ _ _ _ _ Hcontains).
  - by rewrite (QBAFARelations___contains___self _ _ _ _ Hcontains).
Qed.

Lemma reachable_index_consistent_witness :
  index_consistent
    {| relations := {[PyTuple [PyAtom 3; PyAtom 2]]};
       agent_patients := {[PyAtom 1 := ∅; PyAtom 3 := {[PyAtom 2]}]};
       patient_agents := {[PyAtom 2 := {[PyAtom 3]}]} |}.
Proof.
  apply reachable_index_consistent.
  eapply (reachable_remove _ [PyAtom 1; PyAtom 2] []).
  - eapply (reachable_add _ [PyAtom 3; PyAtom 2] []).
    + eapply (reachable_create
                (ArgsTuple [PyList [PyTuple [PyAtom 1; PyAtom 2]]]) []).
      vm_compute. reflexivity.
    + vm_compute. reflexivity.
  - vm_compute. reflexivity.
Defined.

(** C5: for a set or a list [v] whose items are all tuples of size two, the
    call of the type returns a store when memory suffices; and every store
    [self] it returns has as length the number of distinct items of [v], and
    answers true to the membership test, by [in] and by [contains], for
    every pair of [v]. *)
Theorem QBAFARelationsType_call_len_contains v items :
  PyValue_items v = Some items →
  Forall (λ x, is_pair x = true) items →
  (∃ self, QBAFARelationsType_call (ArgsTuple [v]) [] = (Return self, []))
  ∧ ∀ o self o',
      QBAFARelationsType_call (ArgsTuple [v]) o = (Return self, o') →
      QBAFARelations___len__ self = Z.of_nat (length (remove_dups items))
      ∧ ∀ a p, PyTuple [a; p] ∈ items →
          QBAFARelations___contains__ self (PyTuple [a; p]) = (Return true, self)
          ∧ ∀ o2, fst (malloc o2) = true →
              fst (QBAFARelations_contains self [a; p] o2) = (Return true, self).
Proof.
  intros Hitems Hall. split; [by eapply QBAFARelationsType_call_total|].
  intros o self o' Hcall.
  apply QBAFARelationsType_call_spec in Hcall
    as (v0 & items0 & [= <-] & Hitems0 & _ & Hrel & _ & _).
  assert (items0 = items) as -> by congruence.
  split.
  - unfold QBAFARelations___len__. by rewrite Hrel, size_list_to_set_remove_dups.
  - intros a p Hin.
    assert (QBAFARelations___contains__ self (PyTuple [a; p]) = (Return true, self))
      as Hcontains.
    { unfold QBAFARelations___contains__, PySet_Contains. cbn [is_pair negb].
      rewrite bool_decide_eq_true_2; [done|].
      rewrite Hrel. by apply elem_of_list_to_set. }
    split; [done|]. intros o2 Hmem.
    unfold QBAFARelations_contains, PyTuple_Pack. cbn [PyArg_Parse_OO].
    destruct (malloc o2) as [[|] o3]; [|done].
    by rewrite Hcontains.
Qed.

Lemma QBAFARelationsType_call_len_contains_witness :
  let items := [PyTuple [PyAtom 1; PyAtom 3]; PyTuple [PyAtom 2; PyAtom 3];
                PyTuple [PyAtom 1; PyAtom 3]] in
  let v := PyList items in
  (∃ self, QBAFARelationsType_call (ArgsTuple [v]) [] = (Return self, []))
  ∧ ∀ o self o',
      QBAFARelationsType_call (ArgsTuple [v]) o = (Return self, o') →
      QBAFARelations___len__ self = Z.of_nat (length (remove_dups items))
      ∧ ∀ a p, PyTuple [a; p] ∈ items →
          QBAFARelations___contains__ self (PyTuple [a; p]) = (Return true, self)
          ∧ ∀ o2, fst (malloc o2) = true →
              fst (QBAFARelations_contains self [a; p] o2) = (Return true, self).
Proof.
  apply (QBAFARelationsType_call_len_contains
           (PyList [PyTuple [PyAtom 1; PyAtom 3]; PyTuple [PyAtom 2; PyAtom 3];
                    PyTuple [PyAtom 1; PyAtom 3]])).
  - reflexivity.
  - repeat constructor.
Defined.

(** The scenario of the specification: two agents for one patient. *)
Example QBAFARelationsType_call_two_agents :
  ∃ self,
    QBAFARelationsType_call
      (ArgsTuple [PyList [PyTuple [PyAtom 1; PyAtom 3]; PyTuple [PyAtom 2; PyAtom 3];
                          PyTuple [PyAtom 1; PyAtom 3]]]) []
    = (Return self, [])
    ∧ QBAFARelations___len__ self = 2
    ∧ bucket (agent_patients self) (PyAtom 1) = {[PyAtom 3]}
    ∧ bucket (patient_agents self) (PyAtom 3) = {[PyAtom 1; PyAtom 2]}.
Proof. eexists. split; [reflexivity|]. vm_compute. done. Qed.

(** C6 (the code falls short of it): [QBAFARelations_copy] calls
    [QBAFARelations_new] with a [NULL] type, and [QBAFARelations_new] starts
    by reading [type->tp_alloc]: on every store and whatever the memory, the
    call crashes and no copy is returned. *)
Theorem QBAFARelations_copy_segfault self o :
  QBAFARelations_copy self o = (Segfault, o)
  ∧ ∀ copy o', QBAFARelations_copy self o ≠ (Return copy, o').
Proof.
  assert (QBAFARelations_copy self o = (Segfault, o)) as Hcopy.
  { unfold QBAFARelations_copy. cbn [QBAFARelations_new]. reflexivity. }
  split; [done|]. intros copy o'. rewrite Hcopy. discriminate.
Qed.

(** C8: on a consistent store that holds the pair [(a, p)], after
    [remove(a, p)] the key [a] is still in [agent_patients] and the key [p]
    still in [patient_agents]; when the call returns normally none of the
    three structures holds the pair any more, and the two dicts have the
    keys they had. *)
Theorem QBAFARelations_remove_keeps_keys self a p o r self' o' :
  index_consistent self →
  in_relations self a p →
  QBAFARelations_remove self [a; p] o = (r, self', o') →
  a ∈ dom (agent_patients self')
  ∧ p ∈ dom (patient_agents self')
  ∧ (r = Return () →
     ¬ in_relations self' a p ∧ ¬ in_agent_patients self' a p
     ∧ ¬ in_patient_agents self' a p
     ∧ dom (agent_patients self') = dom (agent_patients self)
     ∧ dom (patient_agents self') = dom (patient_agents self)).
Proof.
  intros Hcons Hin Hrem.
  destruct (Hcons a p) as [Hrel_ap Hap_pa].
  assert (a ∈ dom (agent_patients self)) as Ha.
  { eapply bucket_elem_of_dom. by apply Hrel_ap. }
  assert (p ∈ dom (patient_agents self)) as Hp.
  { eapply bucket_elem_of_dom. by apply Hap_pa, Hrel_ap. }
  apply QBAFARelations_remove_spec in Hrem; [|done].
  destruct Hrem as [[-> [->|[_ Hout]]]|(-> & _ & Hrel & Hap & Hpa & Hdom1 & Hdom2)];
    [done|done|].
  rewrite Hdom1, Hdom2. split_and!; [done|done|]. intros _.
  rewrite Hrel, Hap, Hpa. tauto.
Qed.

Lemma QBAFARelations_remove_keeps_keys_witness :
  let self :=
    {| relations := {[PyTuple [PyAtom 1; PyAtom 2]]};
       agent_patients := {[PyAtom 1 := {[PyAtom 2]}]};
       patient_agents := {[PyAtom 2 := {[PyAtom 1]}]} |} in
  let self' :=
    {| relations := ∅;
       agent_patients := {[PyAtom 1 := ∅]};
       patient_agents := {[PyAtom 2 := ∅]} |} in
  let r : outcome () := Return () in
  PyAtom 1 ∈ dom (agent_patients self')
  ∧ PyAtom 2 ∈ dom (patient_agents self')
  ∧ (r = Return () →
     ¬ in_relations self' (PyAtom 1) (PyAtom 2)
     ∧ ¬ in_agent_patients self' (PyAtom 1) (PyAtom 2)
     ∧ ¬ in_patient_agents self' (PyAtom 1) (PyAtom 2)
     ∧ dom (agent_patients self') = dom (agent_patients self)
     ∧ dom (patient_agents self') = dom (patient_agents self)).
Proof.
  apply (QBAFARelations_remove_keeps_keys
           {| relations := {[PyTuple [PyAtom 1; PyAtom 2]]};
              agent_patients := {[PyAtom 1 := {[PyAtom 2]}]};
              patient_agents := {[PyAtom 2 := {[PyAtom 1]}]} |}
           (PyAtom 1) (PyAtom 2) [] (Return ())
           {| relations := ∅;
              agent_patients := {[PyAtom 1 := ∅]};
              patient_agents := {[PyAtom 2 := ∅]} |} []).
  - apply (QBAFARelationsType_call_consistent
             (ArgsTuple [PyList [PyTuple [PyAtom 1; PyAtom 2]]]) [] _ []).
    vm_compute. reflexivity.
  - unfold in_relations. simpl. by apply elem_of_singleton.
  - vm_compute. reflexivity.
Defined.

(** C9: on a key that is not a tuple of size two, [__contains__] raises
    [TypeError] and leaves the store as it is; so does the method
    [contains] when its positional arguments are not exactly two. *)
Theorem QBAFARelations_contains_type_error self :
  (∀ key, is_pair key = false →
     QBAFARelations___contains__ self key = (Raise TypeError, self))
  ∧ (∀ args o, length args ≠ 2%nat →
       QBAFARelations_contains self args o = (Raise TypeError, self, o)).
Proof.
  split.
  - intros key Hkey. unfold QBAFARelations___contains__. by rewrite Hkey.
  - intros args o Hlen. unfold QBAFARelations_contains.
    by destruct args as [|a [|p [|x args]]].
Qed.

Lemma QBAFARelations_contains_type_error_witness :
  let self :=
    {| relations := {[PyTuple [PyAtom 1; PyAtom 2]]};
       agent_patients := {[PyAtom 1 := {[PyAtom 2]}]};
       patient_agents := {[PyAtom 2 := {[PyAtom 1]}]} |} in
  QBAFARelations___contains__ self (PyAtom 1) = (Raise TypeError, self)
  ∧ QBAFARelations___contains__ self (PyTuple [PyAtom 1; PyAtom 2; PyAtom 3])
    = (Raise TypeError, self)
  ∧ QBAFARelations_contains self [PyAtom 1] [] = (Raise TypeError, self, []).
Proof.
  intros self.
  destruct (QBAFARelations_contains_type_error self) as [Hkey Hargs].
  split_and!.
  - apply Hkey. reflexivity.
  - apply Hkey. reflexivity.
  - apply Hargs. simpl. lia.
Defined.

End relations_facts.

(** * Further properties of qbaf_utils.c *)

Section qbaf_utils_more_facts.
Import qbaf_utils.

Lemma SET_ITEM_loop_spec {A : Type} (items : list A) (pre : list (option A)) (n : nat) :
  SET_ITEM_loop (pre ++ replicate n None) (length pre) items
  = if decide (length items ≤ n)%nat
    then Some (pre ++ (Some <$> items) ++ replicate (n - length items) None)
    else None.
Proof.
  revert pre n.
  induction items as [|item items IH]; intros pre n;
    cbn [SET_ITEM_loop length fmap list_fmap].
  - rewrite decide_True by lia. by rewrite Nat.sub_0_r.
  - unfold PyList_SET_ITEM. rewrite length_app, length_replicate.
    destruct n as [|n].
    + rewrite decide_False by lia. by rewrite decide_False by lia.
    + rewrite decide_True by lia.
      replace (<[length pre := Some item]> (pre ++ replicate (S n) None))
        with ((pre ++ [Some item]) ++ replicate n None); cycle 1.
      { rewrite insert_app_r_alt, Nat.sub_diag by lia. simpl.
        by rewrite <- app_assoc. }
      replace (S (length pre)) with (length (pre ++ [Some item]))
        by (rewrite length_app; simpl; lia).
      rewrite IH. destruct (decide (length items ≤ n)%nat).
      * rewrite decide_True by lia. f_equal. by rewrite <- app_assoc.
      * by rewrite decide_False by lia.
Qed.

Lemma IsSubset_loop_spec (h : heap) set2 s2 items :
  h !! set2 = Some s2 →
  IsSubset_loop h set2 items
  = if decide (Forall (λ x, x ∈ s2) items) then 1 else 0.
Proof.
  intros Hs2. induction items as [|item items IH]; cbn [IsSubset_loop].
  - destruct (decide (Forall (λ x, x ∈ s2) [])) as [_|Hno]; [done|].
    destruct Hno. constructor.
  - unfold PySet_Contains. rewrite Hs2.
    destruct (decide (Forall (λ x, x ∈ s2) (item :: items))) as [Hall|Hno].
    + apply Forall_cons in Hall as [Hin Hall].
      case_bool_decide; [|done].
      rewrite IH. by rewrite decide_True.
    + case_bool_decide as Hin; [|done].
      rewrite IH. rewrite decide_False; [done|].
      intros Hall. apply Hno. constructor; assumption.
Qed.

Lemma PySet_IsSubset_spec (h : heap) set1 set2 s1 s2 :
  h !! set1 = Some s1 → h !! set2 = Some s2 →
  PySet_IsSubset h set1 set2 = if decide (s1 ⊆ s2) then 1 else 0.
Proof.
  intros H1 H2. unfold PySet_IsSubset, PyObject_GetIter. rewrite H1.
  rewrite (IsSubset_loop_spec _ _ _ _ H2).
  assert (Forall (λ x, x ∈ s2) (elements s1) ↔ s1 ⊆ s2) as Hiff.
  { rewrite Forall_forall. split.
    - intros Hall x Hx. by apply Hall, elem_of_elements.
    - intros Hsub x Hx. by apply Hsub, elem_of_elements. }
  destruct (decide (s1 ⊆ s2)) as [Hsub|Hno].
  - by rewrite decide_True by (by apply Hiff).
  - by rewrite decide_False by (by rewrite Hiff).
Qed.

Lemma Union_loop_spec items (h : heap) new acc :
  h !! new = Some acc →
  ∃ h', Union_loop h new items = Some h'
    ∧ length h' = length h
    ∧ h' !! new = Some (acc ∪ list_to_set items)
    ∧ ∀ l, l ≠ new → h' !! l = h !! l.
Proof.
  revert h acc. induction items as [|item items IH]; intros h acc Hnew; simpl.
  - exists h. split_and!; [done|done| |done]. rewrite Hnew. f_equal. set_solver.
  - unfold PySet_Add. rewrite Hnew.
    assert (new < length h)%nat as Hlt by (by eapply lookup_lt_Some).
    destruct (IH (<[new := acc ∪ {[item]}]> h) (acc ∪ {[item]}))
      as (h' & -> & Hlen & Hres & Hframe).
    { by apply list_lookup_insert_eq. }
    exists h'. split_and!.
    + done.
    + by rewrite Hlen, length_insert.
    + rewrite Hres. f_equal. set_solver.
    + intros l Hl. rewrite Hframe by done. by rewrite list_lookup_insert_ne.
Qed.

Lemma PySet_Union_spec (h : heap) set1 set2 s1 s2 :
  h !! set1 = Some s1 → h !! set2 = Some s2 →
  ∃ h', PySet_Union h set1 set2 = (Some (length h), h')
    ∧ h' !! length h = Some (s1 ∪ s2)
    ∧ preserved h h'.
Proof.
  intros H1 H2. unfold PySet_Union.
  assert (∀ (a b : loc) sa sb, h !! a = Some sa → h !! b = Some sb →
    ∃ h', match PySet_New h b with
          | (None, h0) => (None, h0)
          | (Some new, h0) =>
              match PyObject_GetIter h0 a with
              | None => (None, h0)
              | Some items =>
                  match Union_loop h0 new items with
                  | None => (None, h0)
                  | Some h1 => (Some new, h1)
                  end
              end
          end = (Some (length h), h')
      ∧ h' !! length h = Some (sa ∪ sb) ∧ preserved h h') as Hgen.
  { intros a b sa sb Ha Hb. unfold PySet_New, PyObject_GetIter. rewrite Hb.
    rewrite (lookup_app_l_Some _ _ _ _ Ha).
    destruct (Union_loop_spec (elements sa) (h ++ [sb]) (length h) sb)
      as (h' & -> & Hlen & Hres & Hframe).
    - rewrite lookup_app_r, Nat.sub_diag by lia. done.
    - exists h'. split_and!; [done| |].
      + rewrite Hres. f_equal. rewrite list_to_set_elements_L. set_solver.
      + intros l v Hl. rewrite Hframe.
        * by apply lookup_app_l_Some.
        * apply lookup_lt_Some in Hl. lia. }
  destruct (PySet_GET_SIZE h set1 >? PySet_GET_SIZE h set2).
  - destruct (Hgen set2 set1 s2 s1 H2 H1) as (h' & Hrun & Hres & Hp).
    exists h'. by rewrite (union_comm_L s1 s2).
  - by apply Hgen.
Qed.

Lemma Difference_loop_spec items (h : heap) set2 new s2 acc :
  h !! set2 = Some s2 → h !! new = Some acc → new ≠ set2 →
  ∃ h', Difference_loop h set2 new items = Some h'
    ∧ length h' = length h
    ∧ h' !! new = Some (acc ∪ (list_to_set items ∖ s2))
    ∧ ∀ l, l ≠ new → h' !! l = h !! l.
Proof.
  revert h acc. induction items as [|item items IH]; intros h acc H2 Hnew Hne; simpl.
  - exists h. split_and!; [done|done| |done].
    rewrite Hnew. f_equal. set_solver.
  - unfold PySet_Contains. rewrite H2.
    case_bool_decide as Hin.
    + destruct (IH h acc H2 Hnew Hne) as (h' & -> & Hlen & Hres & Hframe).
      exists h'. split_and!; [done|done| |done].
      rewrite Hres. f_equal. set_solver.
    + unfold PySet_Add. rewrite Hnew.
      assert (new < length h)%nat as Hlt by (by eapply lookup_lt_Some).
      destruct (IH (<[new := acc ∪ {[item]}]> h) (acc ∪ {[item]}))
        as (h' & -> & Hlen & Hres & Hframe).
      * by rewrite list_lookup_insert_ne.
      * by apply list_lookup_insert_eq.
      * done.
      * exists h'. split_and!.
        -- done.
        -- by rewrite Hlen, length_insert.
        -- rewrite Hres. f_equal. set_solver.
        -- intros l Hl. rewrite Hframe by done. by rewrite list_lookup_insert_ne.
Qed.

Lemma PySet_Difference_spec (h : heap) set1 set2 s1 s2 :
  h !! set1 = Some s1 → h !! set2 = Some s2 →
  ∃ h', PySet_Difference h set1 set2 = (Some (length h), h')
    ∧ h' !! length h = Some (s1 ∖ s2)
    ∧ preserved h h'.
Proof.
  intros H1 H2. unfold PySet_Difference, PySet_New_NULL, PyObject_GetIter.
  rewrite (lookup_app_l_Some _ _ _ _ H1).
  destruct (Difference_loop_spec (elements s1) (h ++ [∅]) set2 (length h) s2 ∅)
    as (h' & -> & Hlen & Hres & Hframe).
  - by apply lookup_app_l_Some.
  - rewrite lookup_app_r, Nat.sub_diag by lia. done.
  - apply lookup_lt_Some in H2. lia.
  - exists h'. split_and!; [done| |].
    + rewrite Hres. f_equal. rewrite list_to_set_elements_L. set_solver.
    + intros l v Hl. rewrite Hframe.
      * by apply lookup_app_l_Some.
      * apply lookup_lt_Some in Hl. lia.
Qed.

(** X1: on two sets, [PySet_IsSubset] answers 1 when every element of the
    first is in the second, and 0 otherwise (never -1). *)
Theorem PySet_IsSubset_correct (h : heap) A B sA sB :
  h !! A = Some sA → h !! B = Some sB →
  (PySet_IsSubset h A B = 1 ↔ sA ⊆ sB)
  ∧ (PySet_IsSubset h A B = 0 ↔ ¬ sA ⊆ sB).
Proof.
  intros HA HB. rewrite (PySet_IsSubset_spec h A B sA sB HA HB).
  destruct (decide (sA ⊆ sB)) as [Hsub|Hno]; split; split; try done.
Qed.

Lemma PySet_IsSubset_correct_witness :
  let sA : gset PyObject := {[PyAtom 3]} in
  let sB : gset PyObject := {[PyAtom 3; PyAtom 4]} in
  let h : heap := [ sA; sB ] in
  (PySet_IsSubset h 0 1 = 1 ↔ sA ⊆ sB)
  ∧ (PySet_IsSubset h 0 1 = 0 ↔ ¬ sA ⊆ sB).
Proof.
  apply (PySet_IsSubset_correct [ {[PyAtom 3]}; {[PyAtom 3; PyAtom 4]} ] 0 1
           {[PyAtom 3]} {[PyAtom 3; PyAtom 4]}); reflexivity.
Defined.

(** X2: [PySet_Union] returns a new set object that holds the elements of
    both sets, and changes no set object that existed, its arguments
    included. *)
Theorem PySet_Union_correct (h : heap) A B sA sB :
  h !! A = Some sA → h !! B = Some sB →
  ∃ new h', PySet_Union h A B = (Some new, h')
    ∧ h !! new = None
    ∧ h' !! new = Some (sA ∪ sB)
    ∧ preserved h h'.
Proof.
  intros HA HB.
  destruct (PySet_Union_spec h A B sA sB HA HB) as (h' & Hrun & Hres & Hp).
  exists (length h), h'. split_and!; [done| |done|done].
  by apply lookup_ge_None.
Qed.

Lemma PySet_Union_correct_witness :
  let sA : gset PyObject := {[PyAtom 1; PyAtom 2; PyAtom 3]} in
  let sB : gset PyObject := {[PyAtom 3; PyAtom 4]} in
  let h : heap := [ sA; sB ] in
  ∃ new h', PySet_Union h 0 1 = (Some new, h')
    ∧ h !! new = None
    ∧ h' !! new = Some (sA ∪ sB)
    ∧ preserved h h'.
Proof.
  apply (PySet_Union_correct
           [ {[PyAtom 1; PyAtom 2; PyAtom 3]}; {[PyAtom 3; PyAtom 4]} ] 0 1
           {[PyAtom 1; PyAtom 2; PyAtom 3]} {[PyAtom 3; PyAtom 4]}); reflexivity.
Defined.

(** X3: [PySet_Intersection] returns a new set object that holds exactly
    the elements common to both sets, and changes no set object that
    existed. *)
Theorem PySet_Intersection_correct (h : heap) A B sA sB :
  h !! A = Some sA → h !! B = Some sB →
  ∃ new h', PySet_Intersection h A B = (Some new, h')
    ∧ h !! new = None
    ∧ h' !! new = Some (sA ∩ sB)
    ∧ preserved h h'.
Proof.
  intros HA HB.
  destruct (PySet_Intersection_spec h A B sA sB HA HB) as (h' & Hrun & Hres & Hp).
  exists (length h), h'. split_and!; [done| |done|done].
  by apply lookup_ge_None.
Qed.

Lemma PySet_Intersection_correct_witness :
  let sA : gset PyObject := {[PyAtom 1; PyAtom 2; PyAtom 3]} in
  let sB : gset PyObject := {[PyAtom 3; PyAtom 4]} in
  let h : heap := [ sA; sB ] in
  ∃ new h', PySet_Intersection h 0 1 = (Some new, h')
    ∧ h !! new = None
    ∧ h' !! new = Some (sA ∩ sB)
    ∧ preserved h h'.
Proof.
  apply (PySet_Intersection_correct
           [ {[PyAtom 1; PyAtom 2; PyAtom 3]}; {[PyAtom 3; PyAtom 4]} ] 0 1
           {[PyAtom 1; PyAtom 2; PyAtom 3]} {[PyAtom 3; PyAtom 4]}); reflexivity.
Defined.

(** X4: [PySet_Difference] returns a new set object that holds the elements
    of the first set that are not in the second, and changes no set object
    that existed. *)
Theorem PySet_Difference_correct (h : heap) A B sA sB :
  h !! A = Some sA → h !! B = Some sB →
  ∃ new h', PySet_Difference h A B = (Some new, h')
    ∧ h !! new = None
    ∧ h' !! new = Some (sA ∖ sB)
    ∧ preserved h h'.
Proof.
  intros HA HB.
  destruct (PySet_Difference_spec h A B sA sB HA HB) as (h' & Hrun & Hres & Hp).
  exists (length h), h'. split_and!; [done| |done|done].
  by apply lookup_ge_None.
Qed.

Lemma PySet_Difference_correct_witness :
  let sA : gset PyObject := {[PyAtom 1; PyAtom 2; PyAtom 3]} in
  let sB : gset PyObject := {[PyAtom 3; PyAtom 4]} in
  let h : heap := [ sA; sB ] in
  ∃ new h', PySet_Difference h 0 1 = (Some new, h')
    ∧ h !! new = None
    ∧ h' !! new = Some (sA ∖ sB)
    ∧ preserved h h'.
Proof.
  apply (PySet_Difference_correct
           [ {[PyAtom 1; PyAtom 2; PyAtom 3]}; {[PyAtom 3; PyAtom 4]} ] 0 1
           {[PyAtom 1; PyAtom 2; PyAtom 3]} {[PyAtom 3; PyAtom 4]}); reflexivity.
Defined.

(** The scenario of the specification for the three set operations. *)
Example PySet_operations_scenario :
  let h : heap := [ {[PyAtom 1; PyAtom 2; PyAtom 3]}; {[PyAtom 3; PyAtom 4]} ] in
  PySet_Union h 0 1
    = (Some 2%nat, h ++ [ {[PyAtom 1; PyAtom 2; PyAtom 3; PyAtom 4]} ])
  ∧ PySet_Difference h 0 1 = (Some 2%nat, h ++ [ {[PyAtom 1; PyAtom 2]} ])
  ∧ PySet_IsSubset h 0 1 = 0.
Proof. vm_compute. done. Qed.

(** X5: [PyList_Concat] returns a list whose slots are all filled: the
    items of the first list followed by those of the second, in order; its
    length is the sum of the two lengths. *)
Theorem PyList_Concat_correct {A : Type} (list1 list2 : list A) :
  PyList_Concat list1 list2 = ListReturn (Some <$> (list1 ++ list2)).
Proof.
  unfold PyList_Concat, PyList_New.
  destruct (Z.ltb_spec (Z.of_nat (length list1) + Z.of_nat (length list2)) 0)
    as [Hneg|_]; [lia|].
  replace (Z.to_nat (Z.of_nat (length list1) + Z.of_nat (length list2)))
    with (length list1 + length list2)%nat by lia.
  pose proof (SET_ITEM_loop_spec list1 [] (length list1 + length list2)) as H1.
  simpl in H1. rewrite H1. rewrite decide_True by lia.
  replace (length list1 + length list2 - length list1)%nat
    with (length list2) by lia.
  pose proof (SET_ITEM_loop_spec list2 (Some <$> list1) (length list2)) as H2.
  rewrite length_fmap in H2. rewrite H2. rewrite decide_True by lia.
  rewrite Nat.sub_diag. simpl. by rewrite app_nil_r, fmap_app.
Qed.

(** X6: [PyList_Copy(iterable, len)] returns [NULL] on a negative [len];
    when the iterable yields more than [len] items it writes outside the
    new list; otherwise it returns the items in order, followed by
    [len - n] slots left empty when the iterable yields only [n < len]
    items.  It is a copy exactly when [len] is the number of items. *)
Theorem PyList_Copy_correct {A : Type} (items : list A) (len : Z) :
  PyList_Copy (Some items) len
  = if len <? 0 then ListNULL
    else if len <? Z.of_nat (length items) then ListOverflow
    else ListReturn ((Some <$> items)
                     ++ replicate (Z.to_nat len - length items) None).
Proof.
  unfold PyList_Copy, PyList_New.
  destruct (Z.ltb_spec len 0) as [Hneg|Hpos]; [done|].
  pose proof (SET_ITEM_loop_spec items [] (Z.to_nat len)) as Hloop.
  simpl in Hloop. rewrite Hloop.
  destruct (Z.ltb_spec len (Z.of_nat (length items))) as [Hlt|Hge].
  - by rewrite decide_False by lia.
  - by rewrite decide_True by lia.
Qed.

Lemma PyList_ContainsSubset_spec (h : heap) lst superset sup :
  h !! superset = Some sup →
  Forall (λ l, is_Some (h !! l)) lst →
  (PyList_ContainsSubset h lst superset = 1
   ↔ Exists (λ l, ∃ s, h !! l = Some s ∧ s ⊆ sup) lst)
  ∧ (PyList_ContainsSubset h lst superset = 0
     ↔ ¬ Exists (λ l, ∃ s, h !! l = Some s ∧ s ⊆ sup) lst).
Proof.
  intros Hsup Hall. induction Hall as [|set lst [s Hs] _ [IH1 IH0]];
    cbn [PyList_ContainsSubset].
  - split; split.
    + done.
    + by intros Hex%Exists_nil.
    + intros _ Hex. by apply Exists_nil in Hex.
    + done.
  - rewrite (PySet_IsSubset_spec h set superset s sup Hs Hsup), Exists_cons.
    destruct (decide (s ⊆ sup)) as [Hsub|Hno]; simpl.
    + assert (∃ s0, h !! set = Some s0 ∧ s0 ⊆ sup) by (by exists s).
      split; split; try done; tauto.
    + assert (¬ ∃ s0, h !! set = Some s0 ∧ s0 ⊆ sup) as Hhd.
      { intros (s' & Hs' & Hsub). assert (s' = s) as -> by congruence. done. }
      rewrite IH1, IH0. tauto.
Qed.

(** X7: on a list of sets, [PyList_ContainsSubset] answers 1 when one of
    the sets of the list is included in [superset], and 0 otherwise. *)
Theorem PyList_ContainsSubset_correct (h : heap) lst superset sup :
  h !! superset = Some sup →
  Forall (λ l, is_Some (h !! l)) lst →
  (PyList_ContainsSubset h lst superset = 1
   ↔ ∃ l s, l ∈ lst ∧ h !! l = Some s ∧ s ⊆ sup)
  ∧ (PyList_ContainsSubset h lst superset = 0
     ↔ ¬ ∃ l s, l ∈ lst ∧ h !! l = Some s ∧ s ⊆ sup).
Proof.
  intros Hsup Hall.
  destruct (PyList_ContainsSubset_spec h lst superset sup Hsup Hall) as [H1 H0].
  assert (Exists (λ l, ∃ s, h !! l = Some s ∧ s ⊆ sup) lst
          ↔ ∃ l s, l ∈ lst ∧ h !! l = Some s ∧ s ⊆ sup) as Hiff.
  { rewrite Exists_exists. split.
    - intros (l & Hl & s & Hs & Hsub). by exists l, s.
    - intros (l & s & Hl & Hs & Hsub). exists l. split; [done|]. by exists s. }
  rewrite H1, H0, Hiff. done.
Qed.

Lemma PyList_ContainsSubset_correct_witness :
  let h : heap := [ {[PyAtom 1; PyAtom 5]}; {[PyAtom 3]}; {[PyAtom 3; PyAtom 4]} ] in
  let lst : list nat := [0%nat; 1%nat] in
  (PyList_ContainsSubset h lst 2 = 1
   ↔ ∃ l s, l ∈ lst ∧ h !! l = Some s ∧ s ⊆ ({[PyAtom 3; PyAtom 4]} : gset PyObject))
  ∧ (PyList_ContainsSubset h lst 2 = 0
     ↔ ¬ ∃ l s, l ∈ lst ∧ h !! l = Some s ∧ s ⊆ ({[PyAtom 3; PyAtom 4]} : gset PyObject)).
Proof.
  apply (PyList_ContainsSubset_correct
           [ {[PyAtom 1; PyAtom 5]}; {[PyAtom 3]}; {[PyAtom 3; PyAtom 4]} ]
           [0%nat; 1%nat] 2 {[PyAtom 3; PyAtom 4]}).
  - reflexivity.
  - repeat constructor; by eexists.
Defined.

(** *** The subsets that [PySet_SubSets] returns *)

Lemma singleton_subsets (s v : gset PyObject) :
  v ∈ (singleton <$> elements s : list (gset PyObject)) ↔ v ⊆ s ∧ size v = 1%nat.
Proof.
  rewrite list_elem_of_fmap. split.
  - intros (x & -> & Hx%elem_of_elements). split; [set_solver|].
    by rewrite size_singleton.
  - intros [Hsub Hsize]. apply size_1_elem_of in Hsize as [x Hx].
    apply leibniz_equiv in Hx. subst v. exists x. split; [done|].
    apply elem_of_elements. set_solver.
Qed.

Lemma NoDup_singletons (s : gset PyObject) :
  NoDup (singleton <$> elements s : list (gset PyObject)).
Proof.
  apply NoDup_fmap_2_strong; [|apply NoDup_elements].
  intros x y _ _ Heq. apply (elem_of_singleton (C:=gset PyObject)).
  rewrite <- Heq. by apply elem_of_singleton.
Qed.

(** The sets of size [sz] of [ms] are those of size [sz - 1] of
    [ms ∖ {item}] with [item] added, and those of size [sz] of
    [ms ∖ {item}]. *)
Lemma subsets_split (ms v : gset PyObject) item (vs2 vs4 : list (gset PyObject)) sz :
  item ∈ ms → 2 ≤ sz →
  (∀ w, w ∈ vs2 ↔ w ⊆ ms ∖ {[item]} ∧ size w = Z.to_nat (sz - 1)) →
  (∀ w, w ∈ vs4 ↔ w ⊆ ms ∖ {[item]} ∧ size w = Z.to_nat sz) →
  v ∈ ((λ w, w ∪ {[item]}) <$> vs2) ++ vs4 ↔ v ⊆ ms ∧ size v = Z.to_nat sz.
Proof.
  intros Hitem Hsz H2 H4. rewrite elem_of_app, list_elem_of_fmap. split.
  - intros [(w & -> & Hw)|Hv].
    + apply H2 in Hw as [Hsub Hsize]. split; [set_solver|].
      rewrite size_union by set_solver. rewrite size_singleton, Hsize. lia.
    + apply H4 in Hv as [Hsub Hsize]. split; [set_solver|done].
  - intros [Hsub Hsize]. destruct (decide (item ∈ v)) as [Hin|Hout].
    + left. exists (v ∖ {[item]}). split.
      * apply set_eq. intros x. rewrite elem_of_union, elem_of_difference,
          elem_of_singleton. destruct (decide (x = item)) as [->|]; tauto.
      * apply H2. split; [set_solver|].
        rewrite size_difference by set_solver. rewrite size_singleton. lia.
    + right. apply H4. split; [set_solver|done].
Qed.

Lemma NoDup_subsets_split (ms : gset PyObject) item (vs2 vs4 : list (gset PyObject)) :
  (∀ w, w ∈ vs2 → w ⊆ ms ∖ {[item]}) →
  (∀ w, w ∈ vs4 → w ⊆ ms ∖ {[item]}) →
  NoDup vs2 → NoDup vs4 →
  NoDup (((λ w, w ∪ {[item]}) <$> vs2) ++ vs4).
Proof.
  intros H2 H4 Hnd2 Hnd4. apply NoDup_app. split_and!.
  - apply NoDup_fmap_2_strong; [|done].
    intros x y Hx%H2 Hy%H2 Heq. apply set_eq. intros z.
    assert (z ∈ x ∪ {[item]} ↔ z ∈ y ∪ {[item]}) as Hz by (by rewrite Heq).
    rewrite !elem_of_union, !elem_of_singleton in Hz.
    destruct (decide (z = item)) as [->|Hne]; [|tauto].
    split; intros Hin; [apply Hx in Hin|apply Hy in Hin]; set_solver.
  - intros v (w & -> & Hw)%list_elem_of_fmap Hv%H4.
    assert (item ∈ w ∪ {[item]}) as Hin by set_solver.
    apply Hv in Hin. set_solver.
  - done.
Qed.

(** The sets returned for a size between 1 and the size of the set: the
    values [vs] that the locations of the result hold are without
    repetition and are exactly the subsets of that size. *)
Lemma SubSets_exact fuel :
  (∀ (h : heap) set sz s lst h',
     h !! set = Some s → (2 * size s + 2 ≤ fuel)%nat →
     1 ≤ sz ≤ Z.of_nat (size s) →
     PySet_SubSets_rec fuel h set sz = (Some lst, h') →
     ∃ vs, Forall2 (λ l v, h' !! l = Some v) lst vs
       ∧ NoDup vs
       ∧ ∀ v, v ∈ vs ↔ v ⊆ s ∧ size v = Z.to_nat sz)
  ∧ (∀ (h : heap) myset sz ms lst res h',
       h !! myset = Some ms → (2 * size ms + 1 ≤ fuel)%nat →
       2 ≤ sz ≤ Z.of_nat (size ms) →
       SubSets_while fuel h myset sz lst = (Some res, h') →
       ∃ new vs, res = lst ++ new
         ∧ Forall2 (λ l v, h' !! l = Some v) new vs
         ∧ NoDup vs
         ∧ ∀ v, v ∈ vs ↔ v ⊆ ms ∧ size v = Z.to_nat sz).
Proof.
  induction fuel as [|fuel [IHr IHw]]; [split; intros; lia|].
  destruct (SubSets_specs fuel) as [Sr Sw].
  split.
  - intros h set sz s lst h' Hs Hfuel Hrange. simpl.
    rewrite (PySet_GET_SIZE_Some _ _ _ Hs).
    destruct (Z.eqb_spec (Z.of_nat (size s)) 0) as [Hz|Hnz]; [lia|].
    destruct (Z.leb_spec sz 0) as [Hle|_]; [lia|].
    destruct (Z.eqb_spec sz 1) as [->|Hne1].
    + unfold PyObject_GetIter. rewrite Hs.
      destruct (SubSets_singletons_spec (elements s) h)
        as (lst0 & h0 & -> & _ & _ & Hall).
      intros [= <- <-]. exists (singleton <$> elements s). split_and!.
      * apply Forall2_fmap_r. eapply Forall2_impl; [exact Hall|]. done.
      * apply NoDup_singletons.
      * intros v. apply singleton_subsets.
    + unfold PySet_New. rewrite Hs. intros Hrun.
      destruct (IHw (h ++ [s]) (length h) sz s [] lst h') as (new & vs & -> & Hvs);
        [|lia|lia|done|by exists vs].
      rewrite lookup_app_r, Nat.sub_diag by lia. done.
  - intros h myset sz ms lst res h' Hms Hfuel Hrange. simpl.
    rewrite (PySet_GET_SIZE_Some _ _ _ Hms).
    destruct (Z.gtb_spec (Z.of_nat (size ms)) 0) as [Hpos|Hzero]; [|lia].
    unfold PySet_Pop. rewrite Hms.
    destruct (elements ms) as [|item rest] eqn:Hel.
    { apply elements_empty_inv in Hel. apply size_empty_iff in Hel. lia. }
    assert (item ∈ ms) as Hitem.
    { apply elem_of_elements. rewrite Hel. by left. }
    assert (myset < length h)%nat as Hmyset by (by eapply lookup_lt_Some).
    set (ms1 := ms ∖ {[item]}).
    assert (size ms = S (size ms1)) as Hsize.
    { unfold ms1. rewrite size_difference by set_solver.
      rewrite size_singleton. lia. }
    set (h1 := <[myset := ms1]> h).
    assert (h1 !! myset = Some ms1) as Hms1 by (by apply list_lookup_insert_eq).
    assert (length h1 = length h) as Hlen1 by apply length_insert.
    destruct (Sr h1 myset (sz - 1) ms1 Hms1)
      as (subset_list & h2 & Hrun2 & Hp2 & Hc2 & _); [lia|].
    rewrite Hrun2.
    destruct (IHr h1 myset (sz - 1) ms1 subset_list h2 Hms1) as (vs2 & Hvs2 & Hnd2 & Hmem2);
      [lia|lia|done|].
    pose proof (preserved_length _ _ Hp2) as Hlen2.
    destruct (SubSets_extend_spec item subset_list h2 lst)
      as (h3 & -> & Hlen3 & Hout3 & Hin3).
    { eapply Forall_impl; [exact Hc2|]. simpl. intros l Hl.
      apply lookup_lt_is_Some. lia. }
    assert (∀ l, (l < length h)%nat → l ∉ subset_list) as Hold.
    { intros l Hl Hmem. unfold created in Hc2.
      rewrite Forall_forall in Hc2. apply Hc2 in Hmem. lia. }
    assert (h3 !! myset = Some ms1) as Hms3.
    { rewrite Hout3 by (by apply Hold). by apply Hp2. }
    assert (Forall2 (λ l v, h3 !! l = Some v) subset_list
              ((λ w, w ∪ {[item]}) <$> vs2)) as Hvs3.
    { apply Forall2_fmap_r. apply Forall2_same_length_lookup.
      split; [by eapply Forall2_length|].
      intros i l v Hl Hv. apply Hin3.
      - by eapply list_elem_of_lookup_2.
      - by eapply (Forall2_lookup_lr _ _ _ _ _ _ Hvs2). }
    rewrite (PySet_GET_SIZE_Some _ _ _ Hms3).
    destruct (Z.ltb_spec (Z.of_nat (size ms1)) sz) as [Hbreak|Hcont].
    + intros [= <- <-].
      exists subset_list, (((λ w, w ∪ {[item]}) <$> vs2) ++ []).
      rewrite app_nil_r. split_and!; [done|done| |].
      * rewrite <- (app_nil_r (_ <$> vs2)).
        apply (NoDup_subsets_split ms item vs2 []); [|by intros w []%elem_of_nil|done|constructor].
        intros w Hw. by apply Hmem2.
      * intros v. rewrite <- (app_nil_r (_ <$> vs2)).
        apply (subsets_split ms v item vs2 [] sz); [done|lia|done|].
        intros w. split; [by intros []%elem_of_nil|].
        intros [Hsub Hsz]. apply subseteq_size in Hsub. fold ms1 in Hsub. lia.
    + destruct (Sw h3 myset sz ms1 (lst ++ subset_list) Hms3)
        as (new4 & h4 & Hrun4 & [Hlen4 Hpe4] & Hc4 & _); [lia|].
      rewrite Hrun4. intros [= <- <-].
      destruct (IHw h3 myset sz ms1 (lst ++ subset_list) ((lst ++ subset_list) ++ new4) h4 Hms3)
        as (new & vs4 & Heq & Hvs4 & Hnd4 & Hmem4); [lia|lia|done|].
      apply app_inv_head in Heq. subst new.
      exists (subset_list ++ new4), (((λ w, w ∪ {[item]}) <$> vs2) ++ vs4).
      split_and!.
      * by rewrite app_assoc.
      * apply Forall2_app; [|done].
        apply Forall2_same_length_lookup. split; [by eapply Forall2_length|].
        intros i l v Hl Hv. apply Hpe4.
        -- intros ->. apply (Hold myset Hmyset). by eapply list_elem_of_lookup_2.
        -- by eapply (Forall2_lookup_lr _ _ _ _ _ _ Hvs3).
      * apply (NoDup_subsets_split ms item vs2 vs4); [| |done|done].
        -- intros w Hw. by apply Hmem2.
        -- intros w Hw. by apply Hmem4.
      * intros v. by apply (subsets_split ms v item vs2 vs4 sz); [done|lia|done|done].
Qed.

(** X8: for a size between 1 and the size of the set, the sets that
    [PySet_SubSets] returns are pairwise different and are exactly the
    subsets of that size: none is missing and none comes twice. *)
Theorem PySet_SubSets_exact (h : heap) set s sz :
  h !! set = Some s →
  1 ≤ sz ≤ Z.of_nat (size s) →
  ∃ lst h' vs, PySet_SubSets h set sz = (Some lst, h')
    ∧ Forall2 (λ l v, h' !! l = Some v) lst vs
    ∧ NoDup vs
    ∧ ∀ v, v ∈ vs ↔ v ⊆ s ∧ size v = Z.to_nat sz.
Proof.
  intros Hs Hrange.
  destruct (PySet_SubSets_spec h set sz s Hs) as (lst & h' & Hrun & _).
  unfold PySet_SubSets in *.
  destruct (proj1 (SubSets_exact (2 * Z.to_nat (PySet_GET_SIZE h set) + 2))
              h set sz s lst h' Hs) as (vs & Hvs);
    [|done|done|by exists lst, h', vs].
  rewrite (PySet_GET_SIZE_Some _ _ _ Hs). lia.
Qed.

Lemma PySet_SubSets_exact_witness :
  let s : gset PyObject := {[PyAtom 1; PyAtom 2; PyAtom 3]} in
  let h : heap := [ s ] in
  ∃ lst h' vs, PySet_SubSets h 0 2 = (Some lst, h')
    ∧ Forall2 (λ l v, h' !! l = Some v) lst vs
    ∧ NoDup vs
    ∧ ∀ v, v ∈ vs ↔ v ⊆ s ∧ size v = Z.to_nat 2.
Proof.
  apply (PySet_SubSets_exact [ {[PyAtom 1; PyAtom 2; PyAtom 3]} ] 0
           {[PyAtom 1; PyAtom 2; PyAtom 3]} 2).
  - reflexivity.
  - vm_compute. split; discriminate.
Defined.

(** *** Sizes outside the range *)

Lemma SubSets_rec_too_large n :
  ∀ fuel (h : heap) set sz s,
    size s = n → h !! set = Some s → (2 * n + 2 ≤ fuel)%nat →
    Z.of_nat n < sz →
    ∃ l h', PySet_SubSets_rec fuel h set sz = (Some [l], h')
      ∧ h' !! l = Some s
      ∧ (length h ≤ l)%nat
      ∧ preserved h h'.
Proof.
  induction n as [|n IH]; intros fuel h set sz s Hsize Hs Hfuel Hsz.
  - destruct fuel as [|fuel]; [lia|]. cbn [PySet_SubSets_rec].
    rewrite (PySet_GET_SIZE_Some _ _ _ Hs), Hsize. simpl.
    apply size_empty_iff, leibniz_equiv in Hsize. subst s.
    exists (length h), (h ++ [∅]). split_and!; [done| |done|apply preserved_app].
    rewrite lookup_app_r, Nat.sub_diag by lia. done.
  - destruct fuel as [|[|fuel]]; [lia|lia|].
    cbn [PySet_SubSets_rec]. rewrite (PySet_GET_SIZE_Some _ _ _ Hs), Hsize.
    destruct (Z.eqb_spec (Z.of_nat (S n)) 0) as [Hz|_]; [lia|].
    destruct (Z.leb_spec sz 0) as [Hle|_]; [lia|].
    destruct (Z.eqb_spec sz 1) as [H1|_]; [lia|].
    unfold PySet_New. rewrite Hs.
    set (myset := length h). set (h1 := h ++ [s]).
    assert (h1 !! myset = Some s) as Hmy.
    { unfold h1, myset. rewrite lookup_app_r, Nat.sub_diag by lia. done. }
    cbn [SubSets_while]. rewrite (PySet_GET_SIZE_Some _ _ _ Hmy), Hsize.
    destruct (Z.gtb_spec (Z.of_nat (S n)) 0) as [_|Hzero]; [|lia].
    unfold PySet_Pop. rewrite Hmy.
    destruct (elements s) as [|item rest] eqn:Hel.
    { apply elements_empty_inv in Hel. apply size_empty_iff in Hel. lia. }
    assert (item ∈ s) as Hitem.
    { apply elem_of_elements. rewrite Hel. by left. }
    set (ms1 := s ∖ {[item]}).
    assert (size ms1 = n) as Hsize1.
    { unfold ms1. rewrite size_difference by set_solver.
      rewrite size_singleton. lia. }
    set (h2 := <[myset := ms1]> h1).
    assert (length h1 = S (length h)) as Hlen1.
    { unfold h1. rewrite length_app. simpl. lia. }
    assert (length h2 = length h1) as Hlen2 by apply length_insert.
    assert (h2 !! myset = Some ms1) as Hms1.
    { apply list_lookup_insert_eq. unfold myset. lia. }
    destruct (IH fuel h2 myset (sz - 1) ms1 Hsize1 Hms1) as (l & h3 & -> & Hl & Hge & Hp);
      [lia|lia|].
    cbn [SubSets_extend]. unfold PySet_Add. rewrite Hl. cbn [app].
    set (h4 := <[l := ms1 ∪ {[item]}]> h3).
    assert (l < length h3)%nat as Hlt by (by eapply lookup_lt_Some).
    assert (h4 !! myset = Some ms1) as Hmy4.
    { unfold h4. rewrite list_lookup_insert_ne by (unfold myset; lia). by apply Hp. }
    rewrite (PySet_GET_SIZE_Some _ _ _ Hmy4), Hsize1.
    destruct (Z.ltb_spec (Z.of_nat n) sz) as [_|Hge']; [|lia].
    exists l, h4. split_and!.
    + done.
    + unfold h4. rewrite list_lookup_insert_eq by done. f_equal.
      unfold ms1. apply set_eq. intros x.
      rewrite elem_of_union, elem_of_difference, elem_of_singleton.
      destruct (decide (x = item)) as [->|]; tauto.
    + lia.
    + intros k v Hk. pose proof (lookup_lt_Some _ _ _ Hk) as Hklt.
      unfold h4. rewrite list_lookup_insert_ne by lia. apply Hp.
      unfold h2. rewrite list_lookup_insert_ne by (unfold myset; lia).
      by apply lookup_app_l_Some.
Qed.

(** X9: for a size larger than the size of the set, [PySet_SubSets] does
    not return an empty list: it returns one new set, which holds all the
    elements of the set (the empty set when the set is empty). *)
Theorem PySet_SubSets_too_large (h : heap) set s sz :
  h !! set = Some s →
  Z.of_nat (size s) < sz →
  ∃ l h', PySet_SubSets h set sz = (Some [l], h')
    ∧ h !! l = None
    ∧ h' !! l = Some s.
Proof.
  intros Hs Hsz. unfold PySet_SubSets.
  destruct (SubSets_rec_too_large (size s)
              (2 * Z.to_nat (PySet_GET_SIZE h set) + 2) h set sz s)
    as (l & h' & Hrun & Hl & Hge & _); [done|done| |done|].
  - rewrite (PySet_GET_SIZE_Some _ _ _ Hs). lia.
  - exists l, h'. split_and!; [done| |done]. by apply lookup_ge_None.
Qed.

Lemma PySet_SubSets_too_large_witness :
  let s : gset PyObject := {[PyAtom 1; PyAtom 2; PyAtom 3]} in
  let h : heap := [ s ] in
  ∃ l h', PySet_SubSets h 0 5 = (Some [l], h')
    ∧ h !! l = None
    ∧ h' !! l = Some s.
Proof.
  apply (PySet_SubSets_too_large [ {[PyAtom 1; PyAtom 2; PyAtom 3]} ] 0
           {[PyAtom 1; PyAtom 2; PyAtom 3]} 5).
  - reflexivity.
  - vm_compute. reflexivity.
Defined.




End qbaf_utils_more_facts.

(** * Further properties of relations.c *)

Section relations_more_facts.
Import relations.

Lemma SET_ITEM_loop_full (items : list PyObject) :
  SET_ITEM_loop (replicate (length items) None) 0 items = Some (Some <$> items).
Proof.
  pose proof (SET_ITEM_loop_spec items [] (length items)) as Hloop.
  simpl in Hloop. rewrite Hloop, decide_True by lia.
  by rewrite Nat.sub_diag, app_nil_r.
Qed.

(** What a listing makes of a bucket. *)
Lemma listing_spec set o :
  match PyList_New (size set) o with
  | (None, o1) => True
  | (Some lst, o1) =>
      match PyObject_GetIter set o1 with
      | (None, o2) => True
      | (Some items, o2) =>
          items = elements set
          ∧ SET_ITEM_loop lst 0 items = Some (Some <$> elements set)
      end
  end.
Proof.
  unfold PyList_New, PyObject_GetIter.
  destruct (malloc o) as [[|] o1]; [|done].
  destruct (malloc o1) as [[|] o2]; [|done].
  split; [done|]. unfold size, set_size. simpl.
  apply SET_ITEM_loop_full.
Qed.

(** X11: on a consistent store, [patients(agent)] leaves the store as it is
    and, unless an allocation fails, returns a list with no empty slot and
    no repetition whose items are exactly the patients [p] such that
    [(agent, p)] is in [relations] (the empty list when there is none);
    when memory suffices it does return. *)
Theorem QBAFARelations_patients_correct self agent :
  index_consistent self →
  (∀ o r self' o',
     QBAFARelations_patients self [agent] o = (r, self', o') →
     self' = self
     ∧ (r = Raise MemoryError
        ∨ ∃ ps, r = Return (Some <$> ps) ∧ NoDup ps
            ∧ ∀ p, p ∈ ps ↔ in_relations self agent p))
  ∧ ∃ ps, QBAFARelations_patients self [agent] [] = (Return (Some <$> ps), self, []).
Proof.
  intros Hcons. split.
  - intros o r self' o'. unfold QBAFARelations_patients. cbn [PyArg_Parse_O1].
    unfold PyDict_Contains, PyDict_GetItem. case_bool_decide as Hdom.
    + apply elem_of_dom in Hdom as [set Hset]. rewrite Hset.
      pose proof (listing_spec set o) as Hlist.
      destruct (PyList_New (size set) o) as [[lst|] o1];
        [|intros [= <- <- <-]; by split; [|left]].
      destruct (PyObject_GetIter set o1) as [[items|] o2];
        [|intros [= <- <- <-]; by split; [|left]].
      destruct Hlist as [-> ->]. intros [= <- <- <-]. split; [done|].
      right. exists (elements set). split_and!; [done|apply NoDup_elements|].
      intros p. rewrite elem_of_elements.
      destruct (Hcons agent p) as [-> _]. unfold in_agent_patients.
      by rewrite (bucket_lookup _ _ _ Hset).
    + unfold PyList_New. destruct (malloc o) as [[|] o1];
        intros [= <- <- <-]; (split; [done|]); [|by left].
      right. exists []. split_and!; [done|constructor|].
      intros p. rewrite elem_of_nil.
      destruct (Hcons agent p) as [-> _]. unfold in_agent_patients, bucket.
      apply not_elem_of_dom in Hdom. rewrite Hdom. simpl.
      rewrite elem_of_empty. done.
  - unfold QBAFARelations_patients. cbn [PyArg_Parse_O1].
    unfold PyDict_Contains, PyDict_GetItem. case_bool_decide as Hdom.
    + apply elem_of_dom in Hdom as [set Hset]. rewrite Hset.
      pose proof (listing_spec set []) as Hlist.
      cbn [PyList_New PyObject_GetIter malloc] in *. destruct Hlist as [_ ->].
      by exists (elements set).
    + by exists [].
Qed.

Lemma QBAFARelations_patients_correct_witness :
  let self :=
    {| relations := {[PyTuple [PyAtom 1; PyAtom 2]]};
       agent_patients := {[PyAtom 1 := {[PyAtom 2]}]};
       patient_agents := {[PyAtom 2 := {[PyAtom 1]}]} |} in
  (∀ o r self' o',
     QBAFARelations_patients self [PyAtom 1] o = (r, self', o') →
     self' = self
     ∧ (r = Raise MemoryError
        ∨ ∃ ps, r = Return (Some <$> ps) ∧ NoDup ps
            ∧ ∀ p, p ∈ ps ↔ in_relations self (PyAtom 1) p))
  ∧ ∃ ps, QBAFARelations_patients self [PyAtom 1] [] = (Return (Some <$> ps), self, []).
Proof.
  apply (QBAFARelations_patients_correct
           {| relations := {[PyTuple [PyAtom 1; PyAtom 2]]};
              agent_patients := {[PyAtom 1 := {[PyAtom 2]}]};
              patient_agents := {[PyAtom 2 := {[PyAtom 1]}]} |} (PyAtom 1)).
  apply (QBAFARelationsType_call_consistent
           (ArgsTuple [PyList [PyTuple [PyAtom 1; PyAtom 2]]]) [] _ []).
  vm_compute. reflexivity.
Defined.

(** X12: on a consistent store, [agents(patient)] leaves the store as it is
    and, unless an allocation fails, returns a list with no empty slot and
    no repetition whose items are exactly the agents [a] such that
    [(a, patient)] is in [relations]; when memory suffices it does
    return. *)
Theorem QBAFARelations_agents_correct self patient :
  index_consistent self →
  (∀ o r self' o',
     QBAFARelations_agents self [patient] o = (r, self', o') →
     self' = self
     ∧ (r = Raise MemoryError
        ∨ ∃ agts, r = Return (Some <$> agts) ∧ NoDup agts
            ∧ ∀ a, a ∈ agts ↔ in_relations self a patient))
  ∧ ∃ agts, QBAFARelations_agents self [patient] [] = (Return (Some <$> agts), self, []).
Proof.
  intros Hcons. split.
  - intros o r self' o'. unfold QBAFARelations_agents. cbn [PyArg_Parse_O1].
    unfold PyDict_Contains, PyDict_GetItem. case_bool_decide as Hdom.
    + apply elem_of_dom in Hdom as [set Hset]. rewrite Hset.
      pose proof (listing_spec set o) as Hlist.
      destruct (PyList_New (size set) o) as [[lst|] o1];
        [|intros [= <- <- <-]; by split; [|left]].
      destruct (PyObject_GetIter set o1) as [[items|] o2];
        [|intros [= <- <- <-]; by split; [|left]].
      destruct Hlist as [-> ->]. intros [= <- <- <-]. split; [done|].
      right. exists (elements set). split_and!; [done|apply NoDup_elements|].
      intros a. rewrite elem_of_elements.
      destruct (Hcons a patient) as [-> ->]. unfold in_patient_agents.
      by rewrite (bucket_lookup _ _ _ Hset).
    + unfold PyList_New. destruct (malloc o) as [[|] o1];
        intros [= <- <- <-]; (split; [done|]); [|by left].
      right. exists []. split_and!; [done|constructor|].
      intros a. rewrite elem_of_nil.
      destruct (Hcons a patient) as [-> ->]. unfold in_patient_agents, bucket.
      apply not_elem_of_dom in Hdom. rewrite Hdom. simpl.
      rewrite elem_of_empty. done.
  - unfold QBAFARelations_agents. cbn [PyArg_Parse_O1].
    unfold PyDict_Contains, PyDict_GetItem. case_bool_decide as Hdom.
    + apply elem_of_dom in Hdom as [set Hset]. rewrite Hset.
      pose proof (listing_spec set []) as Hlist.
      cbn [PyList_New PyObject_GetIter malloc] in *. destruct Hlist as [_ ->].
      by exists (elements set).
    + by exists [].
Qed.

Lemma QBAFARelations_agents_correct_witness :
  let self :=
    {| relations := {[PyTuple [PyAtom 1; PyAtom 2]]};
       agent_patients := {[PyAtom 1 := {[PyAtom 2]}]};
       patient_agents := {[PyAtom 2 := {[PyAtom 1]}]} |} in
  (∀ o r self' o',
     QBAFARelations_agents self [PyAtom 2] o = (r, self', o') →
     self' = self
     ∧ (r = Raise MemoryError
        ∨ ∃ agts, r = Return (Some <$> agts) ∧ NoDup agts
            ∧ ∀ a, a ∈ agts ↔ in_relations self a (PyAtom 2)))
  ∧ ∃ agts, QBAFARelations_agents self [PyAtom 2] [] = (Return (Some <$> agts), self, []).
Proof.
  apply (QBAFARelations_agents_correct
           {| relations := {[PyTuple [PyAtom 1; PyAtom 2]]};
              agent_patients := {[PyAtom 1 := {[PyAtom 2]}]};
              patient_agents := {[PyAtom 2 := {[PyAtom 1]}]} |} (PyAtom 2)).
  apply (QBAFARelationsType_call_consistent
           (ArgsTuple [PyList [PyTuple [PyAtom 1; PyAtom 2]]]) [] _ []).
  vm_compute. reflexivity.
Defined.

(** *** How [add] and [remove] compose *)

Lemma PyDict_GetItemDefaultPySet_New_insert dict key o dict' set o' item :
  PyDict_GetItemDefaultPySet_New dict key o = (Some (dict', set), o') →
  <[key := set ∪ {[item]}]> dict' = <[key := bucket dict key ∪ {[item]}]> dict.
Proof.
  unfold PyDict_GetItemDefaultPySet_New, PyDict_Contains, PyDict_GetItemWithError,
    PySet_New, PyDict_SetItem.
  case_bool_decide as Hdom.
  - destruct (dict !! key) as [set0|] eqn:Hkey; [|done].
    intros [= <- <- <-]. by rewrite (bucket_lookup _ _ _ Hkey).
  - apply not_elem_of_dom in Hdom.
    destruct (malloc o) as [[|] o1]; [|done].
    destruct (malloc o1) as [[|] o2]; [|done].
    intros [= <- <- <-]. rewrite insert_insert_eq. unfold bucket.
    by rewrite Hdom.
Qed.

(** The store after an [add] of a new pair that returns normally. *)
Lemma QBAFARelations_add_new self a p o self' o' :
  ¬ in_relations self a p →
  QBAFARelations_add self [a; p] o = (Return (), self', o') →
  self' = {| relations := relations self ∪ {[PyTuple [a; p]]};
             agent_patients :=
               <[a := bucket (agent_patients self) a ∪ {[p]}]> (agent_patients self);
             patient_agents :=
               <[p := bucket (patient_agents self) p ∪ {[a]}]> (patient_agents self) |}.
Proof.
  intros Hnew. unfold QBAFARelations_add. cbn [PyArg_Parse_OO].
  unfold PyTuple_Pack, PySet_Contains.
  destruct (malloc o) as [[|] o1]; [|done].
  case_bool_decide as Hin; [done|].
  unfold PySet_Add at 1. destruct (malloc o1) as [[|] o2]; [|done].
  cbn [agent_patients patient_agents relations set_relations set_agent_patients
       set_patient_agents].
  destruct (PyDict_GetItemDefaultPySet_New (agent_patients self) a o2)
    as [[[dict1 set1]|] o3] eqn:Hget1; [|done].
  unfold PySet_Add at 1. destruct (malloc o3) as [[|] o4]; [|done].
  cbn [agent_patients patient_agents relations set_relations set_agent_patients
       set_patient_agents].
  destruct (PyDict_GetItemDefaultPySet_New (patient_agents self) p o4)
    as [[[dict2 set2]|] o5] eqn:Hget2; [|done].
  unfold PySet_Add. destruct (malloc o5) as [[|] o6]; [|done].
  intros [= <- <-]. unfold set_patient_agents. simpl.
  rewrite (PyDict_GetItemDefaultPySet_New_insert _ _ _ _ _ _ p Hget1).
  by rewrite (PyDict_GetItemDefaultPySet_New_insert _ _ _ _ _ _ a Hget2).
Qed.

(** [add] of a pair that [relations] holds changes nothing. *)
Lemma QBAFARelations_add_present self a p o r self' o' :
  in_relations self a p →
  QBAFARelations_add self [a; p] o = (r, self', o') →
  self' = self ∧ (r = Return () ∨ r = Raise MemoryError).
Proof.
  intros Hin. unfold QBAFARelations_add. cbn [PyArg_Parse_OO].
  unfold PyTuple_Pack, PySet_Contains.
  destruct (malloc o) as [[|] o1]; [|intros [= <- <- <-]; by split; [|right]].
  rewrite bool_decide_eq_true_2 by done.
  intros [= <- <- <-]. by split; [|left].
Qed.

(** X13: after an [add] that returned normally, adding the same pair again
    changes nothing in the store, and returns normally unless the
    allocation of the tuple fails. *)
Theorem QBAFARelations_add_twice self a p o self1 o1 o2 r self2 o3 :
  QBAFARelations_add self [a; p] o = (Return (), self1, o1) →
  QBAFARelations_add self1 [a; p] o2 = (r, self2, o3) →
  self2 = self1 ∧ (r = Return () ∨ r = Raise MemoryError).
Proof.
  intros Hadd1 Hadd2. eapply QBAFARelations_add_present; [|exact Hadd2].
  apply QBAFARelations_add_spec in Hadd1
    as (n & _ & (Hrel & _ & _) & _ & [[_ Hdone]|[[e He] _]] & _); [|done].
  apply Hrel. destruct Hdone as [->|Hpresent]; [right|by left].
  split; [lia|done].
Qed.

Lemma QBAFARelations_add_twice_witness :
  let self := {| relations := ∅; agent_patients := ∅; patient_agents := ∅ |} in
  let self1 :=
    {| relations := {[PyTuple [PyAtom 1; PyAtom 2]]};
       agent_patients := {[PyAtom 1 := {[PyAtom 2]}]};
       patient_agents := {[PyAtom 2 := {[PyAtom 1]}]} |} in
  let r : outcome () := Return () in
  self1 = self1 ∧ (r = Return () ∨ r = Raise MemoryError).
Proof.
  apply (QBAFARelations_add_twice
           {| relations := ∅; agent_patients := ∅; patient_agents := ∅ |}
           (PyAtom 1) (PyAtom 2) [] _ [] [] (Return ()) _ []).
  - vm_compute. reflexivity.
  - vm_compute. reflexivity.
Defined.

(** X14: on a consistent store [remove] is all or nothing: either it
    leaves the store as it is (the pair was absent, or the allocation of
    the tuple failed), or it returns normally with the pair out of all
    three structures and every other pair kept; the store is consistent
    afterwards. *)
Theorem QBAFARelations_remove_atomic self a p o r self' o' :
  index_consistent self →
  QBAFARelations_remove self [a; p] o = (r, self', o') →
  index_consistent self'
  ∧ all_or_none self' a p
  ∧ (self' = self
     ∨ r = Return ()
       ∧ ¬ in_relations self' a p
       ∧ ∀ a' p', (a', p') ≠ (a, p) →
           (in_relations self' a' p' ↔ in_relations self a' p')
           ∧ (in_agent_patients self' a' p' ↔ in_agent_patients self a' p')
           ∧ (in_patient_agents self' a' p' ↔ in_patient_agents self a' p')).
Proof.
  intros Hcons Hrem.
  assert (∀ s, index_consistent s → all_or_none s a p) as Haon.
  { intros s Hs. destruct (Hs a p) as [H1 H2]. unfold all_or_none.
    destruct (decide (PyTuple [a; p] ∈ relations s)) as [Hin|Hout].
    - left. unfold in_relations in *. tauto.
    - right. unfold in_relations in *. tauto. }
  apply QBAFARelations_remove_spec in Hrem; [|done].
  destruct Hrem as [[-> _]|(-> & Hin & Hrel & Hap & Hpa & _)].
  - split_and!; [done|by apply Haon|by left].
  - assert (index_consistent self') as Hcons'.
    { intros a' p'. destruct (Hcons a' p') as [H1 H2].
      rewrite Hrel, Hap, Hpa. tauto. }
    split_and!; [done|by apply Haon|]. right. split_and!; [done| |].
    + rewrite Hrel. tauto.
    + intros a' p' Hne. rewrite Hrel, Hap, Hpa.
      assert (¬ (a' = a ∧ p' = p)) by (intros [-> ->]; done). tauto.
Qed.

Lemma QBAFARelations_remove_atomic_witness :
  let self :=
    {| relations := {[PyTuple [PyAtom 1; PyAtom 2]]};
       agent_patients := {[PyAtom 1 := {[PyAtom 2]}]};
       patient_agents := {[PyAtom 2 := {[PyAtom 1]}]} |} in
  let self' :=
    {| relations := ∅;
       agent_patients := {[PyAtom 1 := ∅]};
       patient_agents := {[PyAtom 2 := ∅]} |} in
  let a := PyAtom 1 in
  let p := PyAtom 2 in
  let r : outcome () := Return () in
  index_consistent self'
  ∧ all_or_none self' a p
  ∧ (self' = self
     ∨ r = Return ()
       ∧ ¬ in_relations self' a p
       ∧ ∀ a' p', (a', p') ≠ (a, p) →
           (in_relations self' a' p' ↔ in_relations self a' p')
           ∧ (in_agent_patients self' a' p' ↔ in_agent_patients self a' p')
           ∧ (in_patient_agents self' a' p' ↔ in_patient_agents self a' p')).
Proof.
  apply (QBAFARelations_remove_atomic
           {| relations := {[PyTuple [PyAtom 1; PyAtom 2]]};
              agent_patients := {[PyAtom 1 := {[PyAtom 2]}]};
              patient_agents := {[PyAtom 2 := {[PyAtom 1]}]} |}
           (PyAtom 1) (PyAtom 2) [] (Return ()) _ []).
  - apply (QBAFARelationsType_call_consistent
             (ArgsTuple [PyList [PyTuple [PyAtom 1; PyAtom 2]]]) [] _ []).
    vm_compute. reflexivity.
  - vm_compute. reflexivity.
Defined.

Lemma QBAFARelations_remove_relations self a p o self' o' :
  QBAFARelations_remove self [a; p] o = (Return (), self', o') →
  relations self' = relations self ∖ {[PyTuple [a; p]]}.
Proof.
  unfold QBAFARelations_remove. cbn [PyArg_Parse_OO].
  unfold PyTuple_Pack, PySet_Contains.
  destruct (malloc o) as [[|] o1]; [|done].
  case_bool_decide as Hin; cbn [negb].
  - cbn [agent_patients patient_agents relations set_relations set_agent_patients
         set_patient_agents]. unfold PyDict_GetItem.
    destruct (agent_patients self !! a) as [set1|]; [|done].
    cbn [agent_patients patient_agents relations set_relations set_agent_patients
         set_patient_agents].
    destruct (patient_agents self !! p) as [set2|]; [|done].
    by intros [= <- <-].
  - intros [= <- <-]. set_solver.
Qed.

(** X15: an [add] of a pair that [relations] does not hold, when it returns
    normally, makes the length one more and makes the membership test
    answer true for the pair. *)
Theorem QBAFARelations_add_len_contains self a p o self' o' :
  ¬ in_relations self a p →
  QBAFARelations_add self [a; p] o = (Return (), self', o') →
  QBAFARelations___len__ self' = QBAFARelations___len__ self + 1
  ∧ QBAFARelations___contains__ self' (PyTuple [a; p]) = (Return true, self').
Proof.
  intros Hnew Hadd. apply QBAFARelations_add_new in Hadd as ->; [|done].
  unfold QBAFARelations___len__, QBAFARelations___contains__, PySet_Contains.
  cbn [relations is_pair negb]. split.
  - rewrite size_union by (unfold in_relations in Hnew; set_solver).
    rewrite size_singleton. lia.
  - rewrite bool_decide_eq_true_2; [done|]. set_solver.
Qed.

Lemma QBAFARelations_add_len_contains_witness :
  let self := {| relations := ∅; agent_patients := ∅; patient_agents := ∅ |} in
  let self' :=
    {| relations := {[PyTuple [PyAtom 1; PyAtom 2]]};
       agent_patients := {[PyAtom 1 := {[PyAtom 2]}]};
       patient_agents := {[PyAtom 2 := {[PyAtom 1]}]} |} in
  QBAFARelations___len__ self' = QBAFARelations___len__ self + 1
  ∧ QBAFARelations___contains__ self' (PyTuple [PyAtom 1; PyAtom 2])
    = (Return true, self').
Proof.
  apply (QBAFARelations_add_len_contains
           {| relations := ∅; agent_patients := ∅; patient_agents := ∅ |}
           (PyAtom 1) (PyAtom 2) [] _ []).
  - exact (λ H, not_elem_of_empty (C:=gset PyObject) _ H).
  - vm_compute. reflexivity.
Defined.

(** X16: a [remove] of a pair that [relations] holds, when it returns
    normally, makes the length one less and makes the membership test
    answer false for the pair. *)
Theorem QBAFARelations_remove_len_contains self a p o self' o' :
  in_relations self a p →
  QBAFARelations_remove self [a; p] o = (Return (), self', o') →
  QBAFARelations___len__ self' = QBAFARelations___len__ self - 1
  ∧ QBAFARelations___contains__ self' (PyTuple [a; p]) = (Return false, self').
Proof.
  intros Hin Hrem. apply QBAFARelations_remove_relations in Hrem.
  unfold QBAFARelations___len__, QBAFARelations___contains__, PySet_Contains.
  cbn [is_pair negb]. rewrite Hrem. split.
  - rewrite size_difference by (unfold in_relations in Hin; set_solver).
    rewrite size_singleton.
    assert (size (relations self) ≠ 0%nat); [|lia].
    intros Hzero. apply size_empty_iff in Hzero. unfold in_relations in Hin.
    set_solver.
  - rewrite bool_decide_eq_false_2; [done|]. set_solver.
Qed.

Lemma QBAFARelations_remove_len_contains_witness :
  let self :=
    {| relations := {[PyTuple [PyAtom 1; PyAtom 2]]};
       agent_patients := {[PyAtom 1 := {[PyAtom 2]}]};
       patient_agents := {[PyAtom 2 := {[PyAtom 1]}]} |} in
  let self' :=
    {| relations := ∅;
       agent_patients := {[PyAtom 1 := ∅]};
       patient_agents := {[PyAtom 2 := ∅]} |} in
  QBAFARelations___len__ self' = QBAFARelations___len__ self - 1
  ∧ QBAFARelations___contains__ self' (PyTuple [PyAtom 1; PyAtom 2])
    = (Return false, self').
Proof.
  apply (QBAFARelations_remove_len_contains
           {| relations := {[PyTuple [PyAtom 1; PyAtom 2]]};
              agent_patients := {[PyAtom 1 := {[PyAtom 2]}]};
              patient_agents := {[PyAtom 2 := {[PyAtom 1]}]} |}
           (PyAtom 1) (PyAtom 2) [] _ []).
  - unfold in_relations. simpl. by apply elem_of_singleton.
  - vm_compute. reflexivity.
Defined.

(** X17: on a consistent store, an [add] of a new pair followed by a
    [remove] of it, both returning normally, gives back the same
    [relations] and the same recorded pairs in the two dicts; the dicts
    keep the keys of the pair, with an empty bucket when the key is new. *)
Theorem QBAFARelations_add_remove self a p o self1 o1 o2 self2 o3 :
  index_consistent self →
  ¬ in_relations self a p →
  QBAFARelations_add self [a; p] o = (Return (), self1, o1) →
  QBAFARelations_remove self1 [a; p] o2 = (Return (), self2, o3) →
  relations self2 = relations self
  ∧ same_pairs self self2
  ∧ dom (agent_patients self2) = dom (agent_patients self) ∪ {[a]}
  ∧ dom (patient_agents self2) = dom (patient_agents self) ∪ {[p]}.
Proof.
  intros Hcons Hnew Hadd Hrem.
  pose proof (QBAFARelations_add_consistent _ _ _ _ _ Hcons Hadd) as Hcons1.
  pose proof (QBAFARelations_remove_relations _ _ _ _ _ _ Hrem) as Hrel2.
  pose proof (QBAFARelations_add_new _ _ _ _ _ _ Hnew Hadd) as Hself1.
  apply QBAFARelations_add_spec in Hadd
    as (n & _ & (Hrel & Hap & Hpa) & _ & [[_ Hdone]|[[e He] _]] & _); [|done].
  assert (n = 3%nat) as -> by (destruct Hdone; [done|tauto]).
  apply QBAFARelations_remove_spec in Hrem; [|done].
  destruct Hrem as [[_ [Hr|[_ Hout]]]|(_ & _ & Hrel' & Hap' & Hpa' & Hdom1 & Hdom2)].
  - done.
  - destruct Hout. apply Hrel. right. split; [lia|done].
  - destruct (Hcons a p) as [H1 H2]. split_and!.
    + rewrite Hrel2, Hself1. simpl. unfold in_relations in Hnew. set_solver.
    + intros a' p'. rewrite Hrel', Hap', Hpa', Hrel, Hap, Hpa.
      destruct (decide (a' = a ∧ p' = p)) as [[-> ->]|Hne]; [tauto|].
      split_and!; intuition lia.
    + rewrite Hdom1, Hself1. simpl. rewrite dom_insert_L. set_solver.
    + rewrite Hdom2, Hself1. simpl. rewrite dom_insert_L. set_solver.
Qed.

Lemma QBAFARelations_add_remove_witness :
  let self := {| relations := ∅; agent_patients := ∅; patient_agents := ∅ |} in
  let self2 :=
    {| relations := ∅;
       agent_patients := {[PyAtom 1 := ∅]};
       patient_agents := {[PyAtom 2 := ∅]} |} in
  relations self2 = relations self
  ∧ same_pairs self self2
  ∧ dom (agent_patients self2) = dom (agent_patients self) ∪ {[PyAtom 1]}
  ∧ dom (patient_agents self2) = dom (patient_agents self) ∪ {[PyAtom 2]}.
Proof.
  apply (QBAFARelations_add_remove
           {| relations := ∅; agent_patients := ∅; patient_agents := ∅ |}
           (PyAtom 1) (PyAtom 2) []
           {| relations := {[PyTuple [PyAtom 1; PyAtom 2]]};
              agent_patients := {[PyAtom 1 := {[PyAtom 2]}]};
              patient_agents := {[PyAtom 2 := {[PyAtom 1]}]} |} [] [] _ []).
  - exact index_consistent_empty.
  - exact (λ H, not_elem_of_empty (C:=gset PyObject) _ H).
  - vm_compute. reflexivity.
  - vm_compute. reflexivity.
Defined.

(** *** Construction: rejected input, and a second [init] *)

Lemma init_loop_raises items self :
  ¬ Forall (λ x, is_pair x = true) items →
  ∃ self', init_loop items self [] = (Raise TypeError, self', []).
Proof.
  revert self. induction items as [|item items IH]; intros self Hbad.
  - destruct Hbad. constructor.
  - cbn [init_loop]. destruct (is_pair item) eqn:Hpair; cbn [negb]; [|by exists self].
    destruct (is_pair_inv _ Hpair) as (agent & patient & ->).
    cbn [PyTuple_GetItem lookup list_lookup].
    destruct (PyDict_GetItemDefaultPySet_New_total (agent_patients self) agent)
      as (dict1 & set1 & ->).
    cbn [PySet_Add malloc agent_patients patient_agents relations set_relations
         set_agent_patients set_patient_agents].
    destruct (PyDict_GetItemDefaultPySet_New_total (patient_agents self) patient)
      as (dict2 & set2 & ->).
    cbn [PySet_Add malloc]. apply IH.
    intros Hall. apply Hbad. by constructor.
Qed.

(** X18: when the argument is neither a set nor a list, or has an item
    that is not a tuple of size two, the call of the type never returns a
    store, and it raises [TypeError] when memory suffices. *)
Theorem QBAFARelationsType_call_malformed v :
  (∀ items, PyValue_items v = Some items →
            ¬ Forall (λ x, is_pair x = true) items) →
  QBAFARelationsType_call (ArgsTuple [v]) [] = (Raise TypeError, [])
  ∧ ∀ o self o', QBAFARelationsType_call (ArgsTuple [v]) o ≠ (Return self, o').
Proof.
  intros Hbad. split.
  - unfold QBAFARelationsType_call, QBAFARelations_init.
    cbn [QBAFARelations_new PySet_New PyDict_New malloc PyArg_Parse_O].
    destruct (PyValue_items v) as [items|] eqn:Hitems; [|done].
    cbn [PySet_New PyObject_GetIter malloc].
    edestruct init_loop_raises as [self' ->]; [|done].
    intros Hall. apply (Hbad items eq_refl).
    apply Forall_forall. intros x Hx. rewrite Forall_forall in Hall.
    by apply Hall, elem_of_elements, elem_of_list_to_set.
  - intros o self o' Hcall.
    apply QBAFARelationsType_call_spec in Hcall
      as (v0 & items & [= <-] & Hitems & Hall & _).
    by apply (Hbad items).
Qed.

Lemma QBAFARelationsType_call_malformed_witness :
  let v := PyList [PyTuple [PyAtom 1; PyAtom 2]; PyTuple [PyAtom 1; PyAtom 2; PyAtom 3]] in
  QBAFARelationsType_call (ArgsTuple [v]) [] = (Raise TypeError, [])
  ∧ ∀ o self o', QBAFARelationsType_call (ArgsTuple [v]) o ≠ (Return self, o').
Proof.
  apply (QBAFARelationsType_call_malformed
           (PyList [PyTuple [PyAtom 1; PyAtom 2];
                    PyTuple [PyAtom 1; PyAtom 2; PyAtom 3]])).
  intros items [= <-] Hall.
  apply Forall_cons in Hall as [_ Hall]. apply Forall_cons in Hall as [Hbad _].
  discriminate.
Defined.

(** X19: [init] on a store that is not new (a second [__init__]) replaces
    [relations] by the set of the items but clears neither dict: each dict
    records what it recorded before together with the pairs of the items.
    The store it leaves is consistent exactly when every pair that the
    dicts recorded is among the items. *)
Theorem QBAFARelations_init_accumulates self v items o self' o' :
  PyValue_items v = Some items →
  QBAFARelations_init self (ArgsTuple [v]) o = (Return (), self', o') →
  relations self' = list_to_set items
  ∧ (∀ a p, in_agent_patients self' a p
            ↔ in_agent_patients self a p ∨ PyTuple [a; p] ∈ items)
  ∧ (∀ a p, in_patient_agents self' a p
            ↔ in_patient_agents self a p ∨ PyTuple [a; p] ∈ items)
  ∧ (index_consistent self'
     ↔ ∀ a p, in_agent_patients self a p ∨ in_patient_agents self a p →
              PyTuple [a; p] ∈ items).
Proof.
  intros Hitems. unfold QBAFARelations_init. cbn [PyArg_Parse_O].
  rewrite Hitems. unfold PySet_New, PyObject_GetIter.
  destruct (malloc o) as [[|] o1]; [|done].
  destruct (malloc o1) as [[|] o2]; [|done].
  intros Hloop. apply init_loop_spec in Hloop as (_ & Hrel & Hap & Hpa).
  simpl in Hrel.
  assert (∀ x, x ∈ elements (list_to_set (C:=gset PyObject) items) ↔ x ∈ items) as Hel.
  { intros x. by rewrite elem_of_elements, elem_of_list_to_set. }
  assert (∀ a p, in_agent_patients self' a p
                 ↔ in_agent_patients self a p ∨ PyTuple [a; p] ∈ items) as Hap'.
  { intros a p. by rewrite Hap, Hel. }
  assert (∀ a p, in_patient_agents self' a p
                 ↔ in_patient_agents self a p ∨ PyTuple [a; p] ∈ items) as Hpa'.
  { intros a p. by rewrite Hpa, Hel. }
  assert (∀ a p, in_relations self' a p ↔ PyTuple [a; p] ∈ items) as Hrel'.
  { intros a p. unfold in_relations. by rewrite Hrel, elem_of_list_to_set. }
  split_and!; [done|done|done|]. split.
  - intros Hcons a p Hold. destruct (Hcons a p) as [H1 H2].
    apply Hrel'. destruct Hold as [Hold|Hold].
    + apply H1, Hap'. by left.
    + apply H1, H2, Hpa'. by left.
  - intros Hold a p. rewrite Hrel', Hap', Hpa'.
    pose proof (Hold a p). tauto.
Qed.

Lemma QBAFARelations_init_accumulates_witness :
  let self :=
    {| relations := {[PyTuple [PyAtom 1; PyAtom 2]]};
       agent_patients := {[PyAtom 1 := {[PyAtom 2]}]};
       patient_agents := {[PyAtom 2 := {[PyAtom 1]}]} |} in
  let items := [PyTuple [PyAtom 3; PyAtom 4]] in
  let self' :=
    {| relations := {[PyTuple [PyAtom 3; PyAtom 4]]};
       agent_patients := {[PyAtom 1 := {[PyAtom 2]}; PyAtom 3 := {[PyAtom 4]}]};
       patient_agents := {[PyAtom 2 := {[PyAtom 1]}; PyAtom 4 := {[PyAtom 3]}]} |} in
  relations self' = list_to_set items
  ∧ (∀ a p, in_agent_patients self' a p
            ↔ in_agent_patients self a p ∨ PyTuple [a; p] ∈ items)
  ∧ (∀ a p, in_patient_agents self' a p
            ↔ in_patient_agents self a p ∨ PyTuple [a; p] ∈ items)
  ∧ (index_consistent self'
     ↔ ∀ a p, in_agent_patients self a p ∨ in_patient_agents self a p →
              PyTuple [a; p] ∈ items).
Proof.
  apply (QBAFARelations_init_accumulates
           {| relations := {[PyTuple [PyAtom 1; PyAtom 2]]};
              agent_patients := {[PyAtom 1 := {[PyAtom 2]}]};
              patient_agents := {[PyAtom 2 := {[PyAtom 1]}]} |}
           (PyList [PyTuple [PyAtom 3; PyAtom 4]])
           [PyTuple [PyAtom 3; PyAtom 4]] [] _ []).
  - reflexivity.
  - vm_compute. reflexivity.
Defined.

(** *** [remove] after an [add] that failed *)




End relations_more_facts.
